(** * MapNav: visit tracking, route fallback and search suggestions

    A shallow embedding of the parts of the MapNav application that carry
    its session analytics and its client pipelines:

    - [models/UserVisit.ts]           the stored visit document;
    - [app/api/user-visits/route.ts]  the visit-event endpoint ([POST]);
    - [app/page.tsx]                  route acquisition with its direct-path
                                      fallback, search suggestions and the
                                      recent-search list.

    JavaScript strings are sequences of UTF-16 code units, numbers are
    IEEE binary64 floats, [Date]s are integer milliseconds. *)

From Stdlib Require Import ZArith NArith Floats String Ascii DecimalString.
From stdpp Require Import gmap list sorting.

(* Decimal literals denote the nearest binary64 value, as in JavaScript. *)
Set Warnings "-inexact-float".

Local Open Scope Z_scope.

(* ===================================================================== *)
(** * JavaScript values *)
(* ===================================================================== *)

(** A string is its list of UTF-16 code units. *)
Abbreviation JsString := (list N).

Fixpoint js (s : string) : JsString :=
  match s with
  | EmptyString => []
  | String c r => N_of_ascii c :: js r
  end.

Arguments js : simpl never.

(** Truthiness of a possibly absent string: [undefined], [null] and the
    empty string are falsy. *)
Definition truthy (o : option JsString) : bool :=
  match o with
  | Some (_ :: _) => true
  | _ => false
  end.

(** [o === 'lit'] *)
Definition is_lit (o : option JsString) (lit : string) : bool :=
  bool_decide (o = Some (js lit)).

Arguments is_lit : simpl never.

(** [s.startsWith(p)] *)
Fixpoint startsWith (s p : JsString) : bool :=
  match p, s with
  | [], _ => true
  | _ :: _, [] => false
  | c :: p', d :: s' => if N.eqb c d then startsWith s' p' else false
  end.

(** ECMAScript WhiteSpace and LineTerminator code units, the characters
    removed by [String.prototype.trim]. *)
Definition isWhiteSpace (c : N) : bool :=
  match c with
  | 9 | 10 | 11 | 12 | 13 | 32 | 160 | 5760
  | 8192 | 8193 | 8194 | 8195 | 8196 | 8197 | 8198 | 8199 | 8200 | 8201
  | 8202 | 8232 | 8233 | 8239 | 8287 | 12288 | 65279 => true
  | _ => false
  end%N.

Fixpoint trimStart (s : JsString) : JsString :=
  match s with
  | c :: r => if isWhiteSpace c then trimStart r else s
  | [] => []
  end.

Definition trim (s : JsString) : JsString :=
  rev (trimStart (rev (trimStart s))).

(** [s.split(',')[0]]: the part of [s] before its first comma. *)
Fixpoint beforeComma (s : JsString) : JsString :=
  match s with
  | [] => []
  | c :: r => if N.eqb c 44 then [] else c :: beforeComma r
  end.

(** Outcome of [await fetch(url)] followed by [await response.json()]:
    the fetch rejects (transport failure, or abort on timeout), or a
    response arrives with its [ok] flag and a body that parses to a value
    of the expected shape ([None]: parsing throws, or the value has no
    such shape). *)
Inductive Fetched (A : Type) : Type :=
  | Rejected
  | Replied (ok : bool) (body : option A).
Arguments Rejected {A}.
Arguments Replied {A} ok body.

(* ===================================================================== *)
(** * models/UserVisit.ts *)
(* ===================================================================== *)

Module Model.

(** [ILocationData] as a client sends it; its [timestamp] is replaced by
    the handler and so is not part of the payload model. *)
Record LocationInput := {
  in_latitude : float;
  in_longitude : float;
  in_accuracy : option float;
  in_altitude : option float;
  in_altitudeAccuracy : option float;
  in_heading : option float;
  in_speed : option float
}.

Record ILocationData := {
  latitude : float;
  longitude : float;
  accuracy : option float;
  altitude : option float;
  altitudeAccuracy : option float;
  heading : option float;
  speed : option float;
  timestamp : Z
}.

Record IDeviceInfo := {
  di_userAgent : JsString;
  language : JsString;
  platform : JsString;
  screenResolution : JsString;
  windowSize : JsString;
  timezone : JsString;
  cookieEnabled : bool;
  onlineStatus : bool
}.

Record INetworkInfo := {
  effectiveType : option JsString;
  downlink : option float;
  rtt : option float;
  saveData : option bool
}.

Record IUserVisit := {
  _id : N;
  sessionId : JsString;
  ipAddress : option JsString;
  userAgent : JsString;
  firstVisit : Z;
  lastActivity : Z;
  totalDuration : Z;
  locations : list ILocationData;
  currentLocation : option ILocationData;
  locationPermissionGranted : option bool;
  locationPermissionTime : option Z;
  deviceInfo : IDeviceInfo;
  networkInfo : option INetworkInfo;
  pageViews : Z;
  interactionCount : Z;
  searchQueries : list JsString;
  savedLocationsCount : Z;
  city : option JsString;
  country : option JsString;
  region : option JsString;
  createdAt : Z;
  updatedAt : Z
}.

(** Field assignments [userVisit.f = x] on the in-memory document. *)
Definition set_lastActivity (x : Z) (v : IUserVisit) : IUserVisit :=
  let 'Build_IUserVisit a b c d e _ g h i j k l m n o p q r s t u w := v in
  Build_IUserVisit a b c d e x g h i j k l m n o p q r s t u w.

Definition set_totalDuration (x : Z) (v : IUserVisit) : IUserVisit :=
  let 'Build_IUserVisit a b c d e f _ h i j k l m n o p q r s t u w := v in
  Build_IUserVisit a b c d e f x h i j k l m n o p q r s t u w.

Definition set_locations (x : list ILocationData) (v : IUserVisit) : IUserVisit :=
  let 'Build_IUserVisit a b c d e f g _ i j k l m n o p q r s t u w := v in
  Build_IUserVisit a b c d e f g x i j k l m n o p q r s t u w.

Definition set_currentLocation (x : option ILocationData) (v : IUserVisit) : IUserVisit :=
  let 'Build_IUserVisit a b c d e f g h _ j k l m n o p q r s t u w := v in
  Build_IUserVisit a b c d e f g h x j k l m n o p q r s t u w.

Definition set_locationPermissionGranted (x : option bool) (v : IUserVisit) : IUserVisit :=
  let 'Build_IUserVisit a b c d e f g h i _ k l m n o p q r s t u w := v in
  Build_IUserVisit a b c d e f g h i x k l m n o p q r s t u w.

Definition set_locationPermissionTime (x : option Z) (v : IUserVisit) : IUserVisit :=
  let 'Build_IUserVisit a b c d e f g h i j _ l m n o p q r s t u w := v in
  Build_IUserVisit a b c d e f g h i j x l m n o p q r s t u w.

Definition set_interactionCount (x : Z) (v : IUserVisit) : IUserVisit :=
  let 'Build_IUserVisit a b c d e f g h i j k l m n _ p q r s t u w := v in
  Build_IUserVisit a b c d e f g h i j k l m n x p q r s t u w.

Definition set_searchQueries (x : list JsString) (v : IUserVisit) : IUserVisit :=
  let 'Build_IUserVisit a b c d e f g h i j k l m n o _ q r s t u w := v in
  Build_IUserVisit a b c d e f g h i j k l m n o x q r s t u w.

Definition set_savedLocationsCount (x : Z) (v : IUserVisit) : IUserVisit :=
  let 'Build_IUserVisit a b c d e f g h i j k l m n o p _ r s t u w := v in
  Build_IUserVisit a b c d e f g h i j k l m n o p x r s t u w.

Definition set_updatedAt (x : Z) (v : IUserVisit) : IUserVisit :=
  let 'Build_IUserVisit a b c d e f g h i j k l m n o p q r s t u _ := v in
  Build_IUserVisit a b c d e f g h i j k l m n o p q r s t u x.

(** [{ ...data.location, timestamp: new Date() }] *)
Definition stamp (l : LocationInput) (t : Z) : ILocationData :=
  {| latitude := in_latitude l; longitude := in_longitude l;
     accuracy := in_accuracy l; altitude := in_altitude l;
     altitudeAccuracy := in_altitudeAccuracy l; heading := in_heading l;
     speed := in_speed l; timestamp := t |}.

End Model.

(* ===================================================================== *)
(** * app/api/user-visits/route.ts *)
(* ===================================================================== *)

Module Route.
Import Model.

(** ** The request and its environment *)

Record Headers := {
  x_forwarded_for : option JsString;
  x_real_ip : option JsString;
  cf_connecting_ip : option JsString;
  user_agent : option JsString
}.

(** The [data] member of an event body. Every member is optional on the
    wire; the handler reads the ones its event type needs. *)
Record EventData := {
  d_deviceInfo : option IDeviceInfo;
  d_networkInfo : option INetworkInfo;
  d_granted : option bool;
  d_location : option LocationInput;
  d_searchQuery : option JsString;
  d_savedLocation : option bool
}.

Record Body := {
  b_sessionId : option JsString;
  b_type : option JsString;
  b_data : option EventData
}.

(** [request.json()] rejects when the body is not JSON: [req_body = None]. *)
Record NextRequest := {
  headers : Headers;
  req_body : option Body
}.

(** The reply of ipapi.co: the three members the handler reads. *)
Record IpapiJson := {
  ip_city : option JsString;
  ip_country_name : option JsString;
  ip_region : option JsString
}.

(** What the handler cannot decide by itself: the successive readings of
    the system clock ([new Date()], [Date.now()]), the reply of the
    geo-lookup service for an address, and the ObjectId given to a new
    document. *)
Record Env := {
  clock : nat -> Z;
  ipapi : JsString -> Fetched IpapiJson;
  freshId : N
}.

(** The state a request runs against: the UserVisit collection, indexed by
    its unique [sessionId]; the number of clock readings taken so far; the
    addresses looked up at ipapi.co so far. *)
Record World := {
  db : gmap JsString IUserVisit;
  reads : nat;
  lookups : list JsString
}.

Definition set_db (m : gmap JsString IUserVisit) (w : World) : World :=
  {| db := m; reads := reads w; lookups := lookups w |}.

(** ** Computations: state and exceptions *)

Inductive JsError := TypeError | SyntaxError | FetchError | ValidationError.

Inductive Res (A : Type) : Type :=
  | Ok (a : A)
  | Thrown (e : JsError).
Arguments Ok {A} a.
Arguments Thrown {A} e.

Definition M (A : Type) : Type := World -> Res A * World.

Definition ret {A} (a : A) : M A := fun w => (Ok a, w).
Definition throw {A} (e : JsError) : M A := fun w => (Thrown e, w).
Definition bind {A B} (m : M A) (k : A -> M B) : M B :=
  fun w => match m w with
           | (Ok a, w') => k a w'
           | (Thrown e, w') => (Thrown e, w')
           end.
Definition try_catch {A} (m : M A) (h : JsError -> M A) : M A :=
  fun w => match m w with
           | (Ok a, w') => (Ok a, w')
           | (Thrown e, w') => h e w'
           end.

Declare Scope js_scope.
Delimit Scope js_scope with js.
Notation "x <- m ;; k" := (bind m (fun x => k))
  (at level 100, m at next level, right associativity) : js_scope.
Notation "m ;;; k" := (bind m (fun _ => k))
  (at level 100, right associativity) : js_scope.
Local Open Scope js_scope.

(** [x.member] on a possibly undefined [x]. *)
Definition member {A} (o : option A) : M A :=
  match o with
  | Some a => ret a
  | None => throw TypeError
  end.

Section Handler.
Context (env : Env).

(** [new Date()] / [Date.now()]: the next reading of the clock. *)
Definition newDate : M Z :=
  fun w => (Ok (clock env (reads w)),
            {| db := db w; reads := S (reads w); lookups := lookups w |}).

(** [UserVisit.findOne({ sessionId })] *)
Definition findOne (sid : JsString) : M (option IUserVisit) :=
  fun w => (Ok (db w !! sid), w).

(** [userVisit.save()]: the [timestamps] option stamps [updatedAt], then
    the document is written under its [sessionId]. *)
Definition save (v : IUserVisit) : M unit :=
  now <- newDate ;;
  fun w => (Ok tt, set_db (<[sessionId v := set_updatedAt now v]> (db w)) w).

(** [getClientIP] *)
Definition getClientIP (request : NextRequest) : JsString :=
  let h := headers request in
  match x_forwarded_for h with
  | Some (c :: f) => trim (beforeComma (c :: f))
  | _ =>
    match x_real_ip h with
    | Some (c :: r) => c :: r
    | _ =>
      match cf_connecting_ip h with
      | Some (c :: r) => c :: r
      | _ => js "unknown"
      end
    end
  end.

Record GeoData := {
  g_city : JsString;
  g_country : JsString;
  g_region : JsString
}.

Definition unknownGeo : GeoData :=
  {| g_city := js "Unknown"; g_country := js "Unknown"; g_region := js "Unknown" |}.

(** [x || 'Unknown'] *)
Definition orUnknown (o : option JsString) : JsString :=
  match o with
  | Some (c :: r) => c :: r
  | _ => js "Unknown"
  end.

(** [await fetch(`http://ipapi.co/${ip}/json/`)] then [response.json()]:
    the lookup is recorded, and a rejected fetch or an unreadable body
    throws. The status of the response is not looked at. *)
Definition fetchIpapi (ip : JsString) : M IpapiJson :=
  fun w =>
    let w' := {| db := db w; reads := reads w; lookups := lookups w ++ [ip] |} in
    match ipapi env ip with
    | Rejected => (Thrown FetchError, w')
    | Replied _ None => (Thrown SyntaxError, w')
    | Replied _ (Some data) => (Ok data, w')
    end.

(** [getGeographicData] *)
Definition getGeographicData (ip : JsString) : M GeoData :=
  if bool_decide (ip = js "unknown") || startsWith ip (js "192.168.")
     || startsWith ip (js "127.")
  then ret unknownGeo
  else
    try_catch
      (data <- fetchIpapi ip ;;
       ret {| g_city := orUnknown (ip_city data);
              g_country := orUnknown (ip_country_name data);
              g_region := orUnknown (ip_region data) |})
      (fun _ => ret unknownGeo).

(** ** Responses *)

Record RespData := {
  r_sessionId : option JsString;
  r_id : option N
}.

Record Response := {
  status : Z;
  success : bool;
  error : option JsString;
  data : option RespData
}.

Definition badRequest : Response :=
  {| status := 400; success := false;
     error := Some (js "Session ID is required"); data := None |}.

Definition serverError : Response :=
  {| status := 500; success := false;
     error := Some (js "Server error"); data := None |}.

Definition okResponse (userVisit : option IUserVisit) : Response :=
  {| status := 200; success := true; error := None;
     data := Some {| r_sessionId := sessionId <$> userVisit;
                     r_id := _id <$> userVisit |} |}.

(** ** The POST handler *)

(** [new UserVisit({...})] followed by [save()]: schema defaults are
    applied at construction ([firstVisit] and [lastActivity] each call
    [Date.now]), [deviceInfo] is required, and the first save stamps both
    [createdAt] and [updatedAt]. *)
Definition createVisit (sid clientIP ua : JsString) (d : EventData)
    (geo : GeoData) : M IUserVisit :=
  first <- newDate ;;
  last <- newDate ;;
  match d_deviceInfo d with
  | None => throw ValidationError
  | Some di =>
    now <- newDate ;;
    let v :=
      {| _id := freshId env; sessionId := sid; ipAddress := Some clientIP;
         userAgent := ua; firstVisit := first; lastActivity := last;
         totalDuration := 0; locations := []; currentLocation := None;
         locationPermissionGranted := Some false;
         locationPermissionTime := None;
         deviceInfo := di; networkInfo := d_networkInfo d;
         pageViews := 1; interactionCount := 0; searchQueries := [];
         savedLocationsCount := 0;
         city := Some (g_city geo); country := Some (g_country geo);
         region := Some (g_region geo);
         createdAt := now; updatedAt := now |} in
    fun w => (Ok v, set_db (<[sid := v]> (db w)) w)
  end.

(** [Math.floor((new Date().getTime() - firstVisit.getTime()) / 1000)]:
    both times are integer milliseconds, so the floor of the quotient is
    integer division rounding down. *)
Definition elapsedSeconds (now first : Z) : Z := (now - first) / 1000.

Definition onInitialVisit (sid clientIP ua : JsString) (d : option EventData)
    (userVisit : option IUserVisit) : M (option IUserVisit) :=
  match userVisit with
  | Some v => ret (Some v)
  | None =>
    geoData <- getGeographicData clientIP ;;
    d <- member d ;;
    v <- createVisit sid clientIP ua d geoData ;;
    ret (Some v)
  end.

Definition onLocationPermission (d : option EventData)
    (userVisit : option IUserVisit) : M (option IUserVisit) :=
  match userVisit with
  | None => ret None
  | Some v =>
    d <- member d ;;
    let v := set_locationPermissionGranted (d_granted d) v in
    t <- newDate ;;
    let v := set_locationPermissionTime (Some t) v in
    t <- newDate ;;
    let v := set_lastActivity t v in
    v <- match d_granted d, d_location d with
         | Some true, Some loc =>
           t <- newDate ;;
           let currentLocation := stamp loc t in
           ret (set_locations (locations v ++ [currentLocation])
                  (set_currentLocation (Some currentLocation) v))
         | _, _ => ret v
         end ;;
    save v ;;;
    ret (Some v)
  end.

Definition onLocationUpdate (d : option EventData)
    (userVisit : option IUserVisit) : M (option IUserVisit) :=
  match userVisit with
  | None => ret None
  | Some v =>
    d <- member d ;;
    match d_location d with
    | None => ret (Some v)
    | Some loc =>
      t <- newDate ;;
      let newLocation := stamp loc t in
      let v := set_currentLocation (Some newLocation) v in
      let v := set_locations (locations v ++ [newLocation]) v in
      t <- newDate ;;
      let v := set_lastActivity t v in
      t <- newDate ;;
      let v := set_totalDuration (elapsedSeconds t (firstVisit v)) v in
      save v ;;;
      ret (Some v)
    end
  end.

Definition onInteraction (d : option EventData)
    (userVisit : option IUserVisit) : M (option IUserVisit) :=
  match userVisit with
  | None => ret None
  | Some v =>
    let v := set_interactionCount (interactionCount v + 1) v in
    t <- newDate ;;
    let v := set_lastActivity t v in
    d <- member d ;;
    let v := if truthy (d_searchQuery d)
             then set_searchQueries
                    (searchQueries v ++ [default [] (d_searchQuery d)]) v
             else v in
    let v := match d_savedLocation d with
             | Some true => set_savedLocationsCount (savedLocationsCount v + 1) v
             | _ => v
             end in
    t <- newDate ;;
    let v := set_totalDuration (elapsedSeconds t (firstVisit v)) v in
    save v ;;;
    ret (Some v)
  end.

Definition POST (request : NextRequest) : M Response :=
  try_catch
    (body <- member (req_body request) ;;
     let userAgent := orUnknown (user_agent (headers request)) in
     let clientIP := getClientIP request in
     if negb (truthy (b_sessionId body)) then ret badRequest
     else
       let sid := default [] (b_sessionId body) in
       userVisit <- findOne sid ;;
       userVisit <-
         (if is_lit (b_type body) "initial_visit"
          then onInitialVisit sid clientIP userAgent (b_data body) userVisit
          else if is_lit (b_type body) "location_permission"
          then onLocationPermission (b_data body) userVisit
          else if is_lit (b_type body) "location_update"
          then onLocationUpdate (b_data body) userVisit
          else if is_lit (b_type body) "interaction"
          then onInteraction (b_data body) userVisit
          else ret userVisit) ;;
       ret (okResponse userVisit))
    (fun _ => ret serverError).

End Handler.

(** The collection is indexed by the unique [sessionId] of its documents. *)
Definition indexed (m : gmap JsString IUserVisit) : Prop :=
  forall k v, m !! k = Some v -> sessionId v = k.

(** The requests of a log, handled one after the other. *)
Fixpoint serve (env : Env) (requests : list NextRequest) (w : World) : World :=
  match requests with
  | [] => w
  | request :: rest => serve env rest (snd (POST env request w))
  end.


(** The reading of the clock, counted from the start of the request, that
    the handler of an event type uses for [totalDuration]: a location
    update has by then stamped the sample and [lastActivity], an
    interaction [lastActivity] only. *)
Definition durationReading (type : option JsString) : nat :=
  if is_lit type "location_update" then 2%nat else 1%nat.

(** The branch of [POST] on the event type, for a request whose body has
    been read and whose session id is [sid]. *)
Definition dispatch (env : Env) (request : NextRequest) (body : Body)
    (sid : JsString) (userVisit : option IUserVisit)
    : M (option IUserVisit) :=
  if is_lit (b_type body) "initial_visit"
  then onInitialVisit env sid (getClientIP request)
         (orUnknown (user_agent (headers request))) (b_data body) userVisit
  else if is_lit (b_type body) "location_permission"
  then onLocationPermission env (b_data body) userVisit
  else if is_lit (b_type body) "location_update"
  then onLocationUpdate env (b_data body) userVisit
  else if is_lit (b_type body) "interaction"
  then onInteraction env (b_data body) userVisit
  else ret userVisit.

(** ** Relations between the states of a record *)

(** [v'] is a later state of the record [v]: what identifies the session
    and what was captured at its creation is the same, the sequences have
    only grown at their end, the counters have not decreased. *)
Definition extends (v v' : IUserVisit) : Prop :=
  _id v' = _id v /\ sessionId v' = sessionId v /\
  ipAddress v' = ipAddress v /\ userAgent v' = userAgent v /\
  firstVisit v' = firstVisit v /\ deviceInfo v' = deviceInfo v /\
  networkInfo v' = networkInfo v /\ pageViews v' = pageViews v /\
  city v' = city v /\ country v' = country v /\ region v' = region v /\
  createdAt v' = createdAt v /\
  locations v `prefix_of` locations v' /\
  searchQueries v `prefix_of` searchQueries v' /\
  interactionCount v <= interactionCount v' /\
  savedLocationsCount v <= savedLocationsCount v'.

(** [currentLocation] is the last element of [locations], and absent
    when there is none. *)
Definition coherent (v : IUserVisit) : Prop :=
  currentLocation v = last (locations v).

(** What a handler does to the collection when it runs on the record [v]:
    nothing, or it writes under the id of [v] a later state of [v] that
    keeps [currentLocation] in step with [locations] if [v] did. *)
Definition laterState (v : IUserVisit) (w w' : World) : Prop :=
  db w' = db w \/
  exists v', db w' = <[sessionId v := v']> (db w) /\
             extends v v' /\ (coherent v -> coherent v').

(** ** The GET handler *)

(** The query parameters the handler reads with [searchParams.get]. *)
Record SearchParams := {
  p_sessionId : option JsString;
  p_stats : option JsString
}.

(** One entry of [recentVisits]. *)
Record VisitSummary := {
  s_sessionId : JsString;
  s_createdAt : Z;
  s_locationPermissionGranted : option bool;
  s_city : option JsString;
  s_country : option JsString;
  s_totalDuration : Z;
  s_interactionCount : Z
}.

Definition summary (visit : IUserVisit) : VisitSummary :=
  {| s_sessionId := sessionId visit;
     s_createdAt := createdAt visit;
     s_locationPermissionGranted := locationPermissionGranted visit;
     s_city := city visit;
     s_country := country visit;
     s_totalDuration := totalDuration visit;
     s_interactionCount := interactionCount visit |}.

(** [locationPermissionRate]: the number [0], or the text of [toFixed(1)]. *)
Inductive Rate :=
  | RateZero
  | RateText (s : JsString).

Record StatsData := {
  totalVisits : nat;
  visitsWithLocation : nat;
  locationPermissionRate : Rate;
  recentVisits : list VisitSummary
}.

Inductive GetData :=
  | VisitData (visit : option IUserVisit)
  | Overview (statsData : StatsData).

Record GetResponse := {
  get_status : Z;
  get_success : bool;
  get_data : GetData
}.

(** The documents of the collection. *)
Definition documents (m : gmap JsString IUserVisit) : list IUserVisit :=
  (map_to_list m).*2.

(** [sort({ createdAt: -1 })]: a document comes before the ones created
    no later than it. *)
Definition newerFirst (a b : IUserVisit) : Prop := createdAt b <= createdAt a.

#[export] Instance newerFirst_dec : RelDecision newerFirst.
Proof. intros a b. unfold newerFirst. apply _. Defined.

(** [UserVisit.find({}).sort({ createdAt: -1 }).limit(10)]. The order
    among documents created in the same millisecond is the driver's; the
    sort used here is stable on the enumeration of the collection. *)
Definition recentDocuments (m : gmap JsString IUserVisit) : list IUserVisit :=
  take 10 (merge_sort newerFirst (documents m)).

(** [countDocuments({ locationPermissionGranted: true })] *)
Definition countWithLocation (m : gmap JsString IUserVisit) : nat :=
  length (filter (fun v => locationPermissionGranted v = Some true)
            (documents m)).

(** A count as a number (exact below 2^53). *)
Definition ofCount (n : nat) : float :=
  PrimFloat.of_uint63 (Uint63.of_Z (Z.of_nat n)).

Section Get.
(** [Number.prototype.toFixed(1)] *)
Context (toFixed1 : float -> JsString).

Definition overview (m : gmap JsString IUserVisit) : StatsData :=
  let totalVisits := size m in
  let withLocation := countWithLocation m in
  {| totalVisits := totalVisits;
     visitsWithLocation := withLocation;
     locationPermissionRate :=
       if (0 <? totalVisits)%nat
       then RateText (toFixed1 ((ofCount withLocation / ofCount totalVisits) * 100)%float)
       else RateZero;
     recentVisits := map summary (recentDocuments m) |}.

(** [GET] for a request that names a session or asks for the overview;
    [None] stands for the third branch, the paginated listing, whose
    result rests on [parseInt] and on the driver's reading of [skip] and
    [limit] and is not modelled. *)
Definition GET (params : SearchParams) (w : World) : option GetResponse :=
  match p_sessionId params with
  | Some (c :: r) =>
    Some {| get_status := 200; get_success := true;
            get_data := VisitData (db w !! (c :: r)) |}
  | _ =>
    if is_lit (p_stats params) "overview"
    then Some {| get_status := 200; get_success := true;
                 get_data := Overview (overview (db w)) |}
    else None
  end.

End Get.

End Route.

(* ===================================================================== *)
(** * app/page.tsx *)
(* ===================================================================== *)

Module Page.

(** ** Route acquisition *)

(** The transcendental functions of the JavaScript [Math] object are
    implementation-approximated; the development is parametric in them.
    Arithmetic and [Math.sqrt] are IEEE binary64. *)
Class JsMath := {
  Math_sin : float -> float;
  Math_cos : float -> float;
  Math_atan2 : float -> float -> float
}.

Definition Math_PI : float := 3.141592653589793%float.
Definition Math_sqrt : float -> float := PrimFloat.sqrt.

Record Point := { longitude : float; latitude : float }.

Record RouteInfo := { duration : float; distance : float }.

(** A [LatLngExpression] as the page builds it: the pair [[lat, lng]]. *)
Abbreviation LatLng := (float * float)%type.

Record Route := {
  r_coordinates : list LatLng;
  r_distance : float;
  r_duration : float
}.

Inductive RouteType := road | walking.

(** One candidate of the routing service; [geometry.coordinates] holds
    longitude-first pairs ([None]: the candidate has no geometry, and
    reading its coordinates throws). *)
Record OsrmRoute := {
  geometry_coordinates : option (list (float * float));
  o_distance : float;
  o_duration : float
}.

Record OsrmJson := { routes : option (list OsrmRoute) }.

Inductive Profile := driving | foot.

Record RouteState := {
  routeCoordinates : option (list LatLng);
  routeInfo : option RouteInfo;
  isCalculatingRoute : bool;
  routeError : option JsString
}.

Section Routing.
Context `{JsMath}.
Local Open Scope float_scope.

(** The routing service: the reply to a request for a profile and two
    endpoints, within the 10 s after which the request is aborted. *)
Context (osrm : Profile -> Point -> Point -> Fetched OsrmJson).

Definition calculateDistance (point1 point2 : Point) : float :=
  let R := 6371e3 in
  let phi1 := (latitude point1 * Math_PI) / 180 in
  let phi2 := (latitude point2 * Math_PI) / 180 in
  let dphi := ((latitude point2 - latitude point1) * Math_PI) / 180 in
  let dlambda := ((longitude point2 - longitude point1) * Math_PI) / 180 in
  let a := Math_sin (dphi / 2) * Math_sin (dphi / 2) +
           Math_cos phi1 * Math_cos phi2 *
           Math_sin (dlambda / 2) * Math_sin (dlambda / 2) in
  let c := 2 * Math_atan2 (Math_sqrt a) (Math_sqrt (1 - a)) in
  R * c.

Definition createDirectWalkingRoute (start end_ : Point) : Route :=
  let coordinates := [ (latitude start, longitude start);
                       (latitude end_, longitude end_) ] in
  let distance := calculateDistance start end_ in
  let duration := distance / 1.4 in
  {| r_coordinates := coordinates; r_distance := distance;
     r_duration := duration |}.

(** The body of a [try] block up to its first exception: [None] when the
    block throws (rejected fetch, non-2xx status, unreadable body, no
    candidate route, candidate without geometry). *)
Definition routeFromService (o : Fetched OsrmJson) : option Route :=
  match o with
  | Replied true (Some data) =>
    match routes data with
    | Some (route :: _) =>
      match geometry_coordinates route with
      | Some cs =>
        Some {| r_coordinates := map (fun coord => (snd coord, fst coord)) cs;
                r_distance := o_distance route;
                r_duration := o_duration route |}
      | None => None
      end
    | _ => None
    end
  | _ => None
  end.

Definition getWalkingRoute (start end_ : Point) : Route :=
  match routeFromService (osrm foot start end_) with
  | Some r => r
  | None => createDirectWalkingRoute start end_
  end.

Definition networkErrorMessage : JsString :=
  js "Network error: Unable to calculate route. Showing direct path instead.".

(** The effect [getRoute] of the page, run to completion on the display
    state. *)
Definition getRoute (startPoint endPoint : option Point)
    (routeType : RouteType) (st : RouteState) : RouteState :=
  match startPoint, endPoint with
  | Some startPoint, Some endPoint =>
    match routeType with
    | road =>
      match routeFromService (osrm driving startPoint endPoint) with
      | Some route =>
        {| routeCoordinates := Some (r_coordinates route);
           routeInfo := Some {| distance := r_distance route;
                                duration := r_duration route |};
           isCalculatingRoute := false; routeError := None |}
      | None =>
        let coordinates := [ (latitude startPoint, longitude startPoint);
                             (latitude endPoint, longitude endPoint) ] in
        let R := 6371e3 in
        let phi1 := (latitude startPoint * Math_PI) / 180 in
        let phi2 := (latitude endPoint * Math_PI) / 180 in
        let dphi := ((latitude endPoint - latitude startPoint) * Math_PI) / 180 in
        let dlambda := ((longitude endPoint - longitude startPoint) * Math_PI) / 180 in
        let a := Math_sin (dphi / 2) * Math_sin (dphi / 2) +
                 Math_cos phi1 * Math_cos phi2 *
                 Math_sin (dlambda / 2) * Math_sin (dlambda / 2) in
        let c := 2 * Math_atan2 (Math_sqrt a) (Math_sqrt (1 - a)) in
        let distance := R * c in
        let duration := distance / 13.89 in
        {| routeCoordinates := Some coordinates;
           routeInfo := Some {| distance := distance; duration := duration |};
           isCalculatingRoute := false;
           routeError := Some networkErrorMessage |}
      end
    | walking =>
      let walkingRoute := getWalkingRoute startPoint endPoint in
      {| routeCoordinates := Some (r_coordinates walkingRoute);
         routeInfo := Some {| distance := r_distance walkingRoute;
                              duration := r_duration walkingRoute |};
         isCalculatingRoute := false; routeError := None |}
    end
  | _, _ =>
    {| routeCoordinates := None; routeInfo := None;
       isCalculatingRoute := false; routeError := None |}
  end.

(** The profile of the routing service that a route type asks for. *)
Definition profileOf (routeType : RouteType) : Profile :=
  match routeType with
  | road => driving
  | walking => foot
  end.

(** A routing request that fails: the fetch is rejected (transport
    failure, or abort at the 10 s timeout), the status is not 2xx, the
    body cannot be read, or it lists no candidate route. *)
Definition routingFailed (o : Fetched OsrmJson) : bool :=
  match o with
  | Replied true (Some data) =>
    match routes data with
    | Some (_ :: _) => false
    | _ => true
    end
  | _ => true
  end.

(** Follows the spec's words: the great-circle distance between two
    points by the haversine formula, on a sphere of the given radius in
    metres, evaluated left to right in binary64. *)
Definition spec_haversine (radius : float) (p1 p2 : Point) : float :=
  let rad x := (x * Math_PI) / 180 in
  let a := Math_sin (rad (latitude p2 - latitude p1) / 2) *
           Math_sin (rad (latitude p2 - latitude p1) / 2) +
           Math_cos (rad (latitude p1)) * Math_cos (rad (latitude p2)) *
           Math_sin (rad (longitude p2 - longitude p1) / 2) *
           Math_sin (rad (longitude p2 - longitude p1) / 2) in
  radius * (2 * Math_atan2 (Math_sqrt a) (Math_sqrt (1 - a))).

(** The assumed speed of the fallback, in metres per second. *)
Definition spec_fallbackSpeed (routeType : RouteType) : float :=
  match routeType with
  | walking => 1.4
  | road => 13.89
  end.

End Routing.

(** ** Search suggestions *)

Record SearchSuggestion := {
  place_id : JsString;
  display_name : JsString;
  lat : JsString;
  lon : JsString;
  importance : float
}.

(** The display state of the suggestion panel, with the timers set by
    [handleInputChange] that have not fired yet (all with the same 300 ms
    delay, so they fire in the order they were set) and the geocoding
    requests that have been sent and not answered yet. *)
Record SuggestState := {
  searchQuery : JsString;
  searchSuggestions : list SearchSuggestion;
  showSuggestions : bool;
  isSearching : bool;
  timers : list JsString;
  inflight : list JsString
}.

Definition set_display (sugg : list SearchSuggestion) (show searching : bool)
    (st : SuggestState) : SuggestState :=
  {| searchQuery := searchQuery st; searchSuggestions := sugg;
     showSuggestions := show; isSearching := searching;
     timers := timers st; inflight := inflight st |}.

(** The guard of [getSuggestions]: [!query.trim() || query.length < 2] *)
Definition tooShort (query : JsString) : bool :=
  match trim query with
  | [] => true
  | _ :: _ => (length query <? 2)%nat
  end.

(** [getSuggestions] up to its [await fetch(...)]: the new display state
    and the query of the request sent to the geocoding service, if one is
    sent. *)
Definition getSuggestions (query : JsString) (st : SuggestState)
    : SuggestState * option JsString :=
  if tooShort query
  then (set_display [] false (isSearching st) st, None)
  else (set_display (searchSuggestions st) (showSuggestions st) true st,
        Some query).

(** [getSuggestions] from the point where its request settles (reply,
    rejection, or abort after 8 s). *)
Definition getSuggestions_resume (o : Fetched (list SearchSuggestion))
    (st : SuggestState) : SuggestState :=
  match o with
  | Replied true (Some data) =>
    set_display data (0 <? length data)%nat false st
  | _ => set_display [] false false st
  end.

(** [handleInputChange]: the input is stored and a timer is set. *)
Definition handleInputChange (value : JsString) (st : SuggestState)
    : SuggestState :=
  {| searchQuery := value; searchSuggestions := searchSuggestions st;
     showSuggestions := showSuggestions st; isSearching := isSearching st;
     timers := timers st ++ [value]; inflight := inflight st |}.

(** What the event loop can run next. *)
Inductive Event :=
  | Input (value : JsString)
  | TimerFires
  | Settles (query : JsString) (o : Fetched (list SearchSuggestion)).

Fixpoint remove1 (q : JsString) (l : list JsString) : list JsString :=
  match l with
  | [] => []
  | x :: r => if bool_decide (x = q) then r else x :: remove1 q r
  end.

(** One turn of the event loop; [None] when the event is not enabled (no
    timer is pending, or no request for that query is in flight). *)
Definition step (e : Event) (st : SuggestState) : option SuggestState :=
  match e with
  | Input value => Some (handleInputChange value st)
  | TimerFires =>
    match timers st with
    | [] => None
    | value :: rest =>
      let st := {| searchQuery := searchQuery st;
                   searchSuggestions := searchSuggestions st;
                   showSuggestions := showSuggestions st;
                   isSearching := isSearching st;
                   timers := rest; inflight := inflight st |} in
      let '(st, req) := getSuggestions value st in
      Some {| searchQuery := searchQuery st;
              searchSuggestions := searchSuggestions st;
              showSuggestions := showSuggestions st;
              isSearching := isSearching st;
              timers := timers st;
              inflight := inflight st ++ from_option (fun q => [q]) [] req |}
    end
  | Settles query o =>
    if bool_decide (query ∈ inflight st)
    then
      let st := {| searchQuery := searchQuery st;
                   searchSuggestions := searchSuggestions st;
                   showSuggestions := showSuggestions st;
                   isSearching := isSearching st;
                   timers := timers st;
                   inflight := remove1 query (inflight st) |} in
      Some (getSuggestions_resume o st)
    else None
  end.

Fixpoint run (es : list Event) (st : SuggestState) : option SuggestState :=
  match es with
  | [] => Some st
  | e :: es => match step e st with
               | Some st' => run es st'
               | None => None
               end
  end.

Definition initialSuggest : SuggestState :=
  {| searchQuery := []; searchSuggestions := []; showSuggestions := false;
     isSearching := false; timers := []; inflight := [] |}.

Definition reachable (st : SuggestState) : Prop :=
  exists es, run es initialSuggest = Some st.


(** ** Recent searches *)

(** The [recentSearches] state and the ['recentSearches'] entry of
    [localStorage] (the list its JSON text denotes). *)
Record RecentState := {
  recentSearches : list JsString;
  stored : option (list JsString)
}.

(** [saveRecentSearch]; [hasWindow] is [typeof window !== 'undefined']. *)
Definition saveRecentSearch (hasWindow : bool) (query : JsString)
    (st : RecentState) : RecentState :=
  if hasWindow then
    let updated :=
      take 5 (query :: filter (fun s => s <> query) (recentSearches st)) in
    {| recentSearches := updated; stored := Some updated |}
  else st.

(** Queries saved one after the other, the first of the list first. *)
Definition saveAll (queries : list JsString) (st : RecentState) : RecentState :=
  fold_left (fun st query => saveRecentSearch true query st) queries st.

(** [loadRecentSearches], the effect that reads the stored list back when
    the page is mounted in a browser. *)
Definition loadRecentSearches (hasWindow : bool) (st : RecentState)
    : RecentState :=
  if hasWindow then
    match stored st with
    | Some l => {| recentSearches := l; stored := stored st |}
    | None => st
    end
  else st.

(** ** Searching and selecting a place *)

Record EndPointInfo := {
  name : JsString;
  address : JsString
}.

(** The part of the page state that a search or a selection writes, with
    the queries handed to [trackSearchQuery] so far. *)
Record PageState := {
  suggest : SuggestState;
  recent : RecentState;
  endPoint : option Point;
  endPointInfo : option EndPointInfo;
  tracked : list JsString
}.

Definition set_searchQuery (q : JsString) (st : SuggestState) : SuggestState :=
  {| searchQuery := q; searchSuggestions := searchSuggestions st;
     showSuggestions := showSuggestions st; isSearching := isSearching st;
     timers := timers st; inflight := inflight st |}.

Section Searching.
(** [hasWindow] is [typeof window !== 'undefined'], [hasTracker] is
    [userTracker.current] being set, [parseFloat] the global function. *)
Context (hasWindow hasTracker : bool) (parseFloat : JsString -> float).

Definition track (query : JsString) (l : list JsString) : list JsString :=
  if hasTracker then l ++ [query] else l.

(** [handleSuggestionSelect] *)
Definition handleSuggestionSelect (suggestion : SearchSuggestion)
    (st : PageState) : PageState :=
  let latitude := parseFloat (lat suggestion) in
  let longitude := parseFloat (lon suggestion) in
  let first := beforeComma (display_name suggestion) in
  {| suggest :=
       set_display (searchSuggestions (suggest st)) false
         (isSearching (suggest st)) (set_searchQuery first (suggest st));
     recent := saveRecentSearch hasWindow first (recent st);
     endPoint := Some {| longitude := longitude; latitude := latitude |};
     endPointInfo :=
       Some {| name := first; address := display_name suggestion |};
     tracked := track (display_name suggestion) (tracked st) |}.

(** [handleSearch]; [o] is the outcome of its request for the single best
    match. *)
Definition handleSearch (query : JsString)
    (o : Fetched (list SearchSuggestion)) (st : PageState) : PageState :=
  match trim query with
  | [] => st
  | _ :: _ =>
    let suggest' :=
      set_display (searchSuggestions (suggest st)) false
        (isSearching (suggest st)) (suggest st) in
    let recent' := saveRecentSearch hasWindow query (recent st) in
    let tracked' := track query (tracked st) in
    match o with
    | Replied true (Some (result :: _)) =>
      let latitude := parseFloat (lat result) in
      let longitude := parseFloat (lon result) in
      {| suggest := suggest'; recent := recent';
         endPoint := Some {| longitude := longitude; latitude := latitude |};
         endPointInfo :=
           Some {| name := beforeComma (display_name result);
                   address := display_name result |};
         tracked := tracked' |}
    | _ =>
      {| suggest := suggest'; recent := recent'; endPoint := endPoint st;
         endPointInfo := endPointInfo st; tracked := tracked' |}
    end
  end.

(** [handleSearchSubmit] *)
Definition handleSearchSubmit (o : Fetched (list SearchSuggestion))
    (st : PageState) : PageState :=
  handleSearch (searchQuery (suggest st)) o st.

(** [handleRecentSearchSelect] *)
Definition handleRecentSearchSelect (search : JsString)
    (o : Fetched (list SearchSuggestion)) (st : PageState) : PageState :=
  handleSearch search o
    {| suggest := set_searchQuery search (suggest st); recent := recent st;
       endPoint := endPoint st; endPointInfo := endPointInfo st;
       tracked := tracked st |}.

End Searching.

End Page.

(* ===================================================================== *)
(** * More JavaScript values *)
(* ===================================================================== *)

(** [String(n)], the text of a template literal [`${n}`], for an integer
    number. *)
Definition decimal (z : Z) : JsString :=
  js (NilZero.string_of_int (Z.to_int z)).

(** [s.substr(start, length)] for non-negative arguments. *)
Definition substr (s : JsString) (start len : nat) : JsString :=
  take len (drop start s).



(* ===================================================================== *)
(** * app/api/locations/route.ts and models/Location.ts *)
(* ===================================================================== *)

Module Locations.

(** The [coordinates] member of a request body; the schema requires both
    numbers. *)
Record CoordinatesInput := {
  in_lng : option float;
  in_lat : option float
}.

Record LocationBody := {
  b_name : option JsString;
  b_address : option JsString;
  b_coordinates : option CoordinatesInput
}.

Record ILocation := {
  _id : N;
  name : JsString;
  address : JsString;
  lng : float;
  lat : float
}.

Inductive LocData :=
  | Created (newLocation : ILocation)
  | Listed (locations : list ILocation).

Record Response := {
  status : Z;
  success : bool;
  error : option JsString;
  data : option LocData
}.

(** The Location collection, in insertion order. *)
Abbreviation Store := (list ILocation).

(** [GET]: [Location.find({})] *)
Definition GET (store : Store) : Response :=
  {| status := 200; success := true; error := None;
     data := Some (Listed store) |}.

Definition missingFields : Response :=
  {| status := 400; success := false;
     error := Some (js "Missing required fields"); data := None |}.

Definition serverError : Response :=
  {| status := 500; success := false;
     error := Some (js "Server error"); data := None |}.

(** [POST]; [request_body] is [None] when [request.json()] rejects or
    yields no object, [freshId] is the ObjectId of a new document.
    [Location.create] validates the schema: both coordinates are
    required. *)
Definition POST (freshId : N) (request_body : option LocationBody)
    (store : Store) : Response * Store :=
  match request_body with
  | None => (serverError, store)
  | Some body =>
    if negb (truthy (b_name body)) || negb (truthy (b_address body))
       || negb (bool_decide (is_Some (b_coordinates body)))
    then (missingFields, store)
    else
      match b_coordinates body ≫= in_lng, b_coordinates body ≫= in_lat with
      | Some x, Some y =>
        let newLocation :=
          {| _id := freshId; name := default [] (b_name body);
             address := default [] (b_address body); lng := x; lat := y |} in
        ({| status := 201; success := true; error := None;
            data := Some (Created newLocation) |},
         store ++ [newLocation])
      | _, _ => (serverError, store)
      end
  end.

End Locations.

(* ===================================================================== *)
(** * app/admin/page.tsx *)
(* ===================================================================== *)

Module Admin.


End Admin.

(* ===================================================================== *)
(** * lib/userTracking.ts *)
(* ===================================================================== *)

Module Tracking.
Import Model Route.

(** [generateSessionId]: [now] is [Date.now()], [random36] the text
    [Math.random().toString(36)]. *)
Definition generateSessionId (now : Z) (random36 : JsString) : JsString :=
  decimal now ++ js "-" ++ substr random36 2 9.

(** What becomes of one [fetch('/api/user-visits', ...)]: the request
    does not reach the endpoint; it is handled but the answer does not
    come back; or the answer comes back. The headers are the ones the
    endpoint sees. *)
Inductive Link :=
  | RequestLost
  | ResponseLost (seen : Headers)
  | RoundTrip (seen : Headers).

(** The request that carries [JSON.stringify({ sessionId, type, data })]. *)
Definition trackingRequest (seen : Headers) (sessionId type : JsString)
    (data : EventData) : NextRequest :=
  {| headers := seen;
     req_body := Some {| b_sessionId := Some sessionId; b_type := Some type;
                         b_data := Some data |} |}.

(** [sendTrackingData]: [result.success], or [false] when anything
    throws. *)
Definition sendTrackingData (env : Env) (link : Link)
    (sessionId type : JsString) (data : EventData) (w : World)
    : bool * World :=
  match link with
  | RequestLost => (false, w)
  | ResponseLost seen =>
    (false, snd (POST env (trackingRequest seen sessionId type data) w))
  | RoundTrip seen =>
    match POST env (trackingRequest seen sessionId type data) w with
    | (Ok result, w') => (success result, w')
    | (Thrown _, w') => (false, w')
    end
  end.

(** The payloads the tracker sends. *)
Definition noData : EventData :=
  {| d_deviceInfo := None; d_networkInfo := None; d_granted := None;
     d_location := None; d_searchQuery := None; d_savedLocation := None |}.


Definition permissionData (granted : bool) (location : option LocationInput)
    : EventData :=
  {| d_deviceInfo := None; d_networkInfo := None; d_granted := Some granted;
     d_location := location; d_searchQuery := None;
     d_savedLocation := None |}.

Definition locationData (location : LocationInput) : EventData :=
  {| d_deviceInfo := None; d_networkInfo := None; d_granted := None;
     d_location := Some location; d_searchQuery := None;
     d_savedLocation := None |}.

Definition searchData (query : JsString) : EventData :=
  {| d_deviceInfo := None; d_networkInfo := None; d_granted := None;
     d_location := None; d_searchQuery := Some query;
     d_savedLocation := None |}.

Definition saveData : EventData :=
  {| d_deviceInfo := None; d_networkInfo := None; d_granted := None;
     d_location := None; d_searchQuery := None;
     d_savedLocation := Some true |}.

(** ** The browser side *)

Inductive Target := document | window.

Record Listener := {
  target : Target;
  event : JsString
}.

(** What the tracker can acquire from the browser: position watches,
    timers (intervals and timeouts share their ids), event listeners.
    Ids are handed out in increasing order. *)
Record Browser := {
  nextWatch : N;
  nextTimer : N;
  watches : gset N;
  timers : gset N;
  listeners : list Listener
}.

Record UserTracker := {
  sessionId : JsString;
  watchId : option N;
  activityTimer : option N;
  locationUpdateInterval : option N
}.

(** [navigator.geolocation.watchPosition(...)] *)
Definition watchPosition (b : Browser) : N * Browser :=
  (nextWatch b,
   {| nextWatch := N.succ (nextWatch b); nextTimer := nextTimer b;
      watches := {[ nextWatch b ]} ∪ watches b; timers := timers b;
      listeners := listeners b |}).

(** [setInterval(...)] *)
Definition setInterval (b : Browser) : N * Browser :=
  (nextTimer b,
   {| nextWatch := nextWatch b; nextTimer := N.succ (nextTimer b);
      watches := watches b; timers := {[ nextTimer b ]} ∪ timers b;
      listeners := listeners b |}).

Definition clearWatch (id : N) (b : Browser) : Browser :=
  {| nextWatch := nextWatch b; nextTimer := nextTimer b;
     watches := watches b ∖ {[ id ]}; timers := timers b;
     listeners := listeners b |}.

(** [clearTimeout] and [clearInterval] *)
Definition clearTimer (id : N) (b : Browser) : Browser :=
  {| nextWatch := nextWatch b; nextTimer := nextTimer b;
     watches := watches b; timers := timers b ∖ {[ id ]};
     listeners := listeners b |}.

Definition addEventListener (t : Target) (e : string) (b : Browser)
    : Browser :=
  {| nextWatch := nextWatch b; nextTimer := nextTimer b;
     watches := watches b; timers := timers b;
     listeners := listeners b ++ [ {| target := t; event := js e |} ] |}.

(** [setupActivityTracking] *)
Definition setupActivityTracking (b : Browser) : Browser :=
  addEventListener document "visibilitychange"
    (addEventListener window "blur"
      (addEventListener window "focus"
        (addEventListener document "keydown"
          (addEventListener document "scroll"
            (addEventListener document "click" b))))).

(** [startLocationTracking] *)
Definition startLocationTracking (t : UserTracker) (b : Browser)
    : UserTracker * Browser :=
  let '(w, b) := watchPosition b in
  let '(i, b) := setInterval b in
  ({| sessionId := sessionId t; watchId := Some w;
      activityTimer := activityTimer t;
      locationUpdateInterval := Some i |}, b).

(** Truthiness of a timer id: [null] and [0] are falsy. *)
Definition truthyId (o : option N) : bool :=
  match o with
  | Some (Npos _) => true
  | _ => false
  end.

(** [cleanup] *)
Definition cleanup (t : UserTracker) (b : Browser) : UserTracker * Browser :=
  let '(watchId', b) :=
    match watchId t with
    | Some id => (None, clearWatch id b)
    | None => (None, b)
    end in
  let '(activityTimer', b) :=
    if truthyId (activityTimer t)
    then (None, clearTimer (default 0%N (activityTimer t)) b)
    else (activityTimer t, b) in
  let '(interval', b) :=
    if truthyId (locationUpdateInterval t)
    then (None, clearTimer (default 0%N (locationUpdateInterval t)) b)
    else (locationUpdateInterval t, b) in
  ({| sessionId := sessionId t; watchId := watchId';
      activityTimer := activityTimer';
      locationUpdateInterval := interval' |}, b).

(** The server and the browser a tracker runs between. *)
Record System := {
  server : World;
  browser : Browser
}.


(** The answer of [navigator.geolocation.getCurrentPosition]. *)
Inductive PositionResult :=
  | Unsupported
  | Position (location : LocationInput)
  | PositionError.

(** [requestLocationPermission] *)
Definition requestLocationPermission (env : Env) (link : Link)
    (position : PositionResult) (t : UserTracker) (sys : System)
    : bool * UserTracker * System :=
  match position with
  | Unsupported => (false, t, sys)
  | Position locationData =>
    let w := snd (sendTrackingData env link (sessionId t)
                    (js "location_permission")
                    (permissionData true (Some locationData)) (server sys)) in
    let '(t, b) := startLocationTracking t (browser sys) in
    (true, t, {| server := w; browser := b |})
  | PositionError =>
    let w := snd (sendTrackingData env link (sessionId t)
                    (js "location_permission")
                    (permissionData false None) (server sys)) in
    (false, t, {| server := w; browser := browser sys |})
  end.

(** [trackSearchQuery] *)
Definition trackSearchQuery (env : Env) (link : Link) (t : UserTracker)
    (query : JsString) (w : World) : World :=
  snd (sendTrackingData env link (sessionId t) (js "interaction")
         (searchData query) w).

(** [trackLocationSave] *)
Definition trackLocationSave (env : Env) (link : Link) (t : UserTracker)
    (w : World) : World :=
  snd (sendTrackingData env link (sessionId t) (js "interaction") saveData w).

(** [trackActivity], the listener of the six activity events. *)
Definition trackActivity (env : Env) (link : Link) (t : UserTracker)
    (w : World) : World :=
  snd (sendTrackingData env link (sessionId t) (js "interaction") noData w).

(** The callback of the position watch and of the one-minute interval. *)
Definition trackLocationUpdate (env : Env) (link : Link) (t : UserTracker)
    (location : LocationInput) (w : World) : World :=
  snd (sendTrackingData env link (sessionId t) (js "location_update")
         (locationData location) w).

End Tracking.

(* ===================================================================== *)
(** * Sample sessions, requests and queries *)
(* ===================================================================== *)

Module Examples.
Import Model Route.

Definition device : IDeviceInfo :=
  {| di_userAgent := js "Mozilla/5.0"; language := js "en-IN";
     platform := js "Linux x86_64"; screenResolution := js "1920x1080";
     windowSize := js "1280x720"; timezone := js "Asia/Kolkata";
     cookieEnabled := true; onlineStatus := true |}.

Definition sid : JsString := js "1700000000000-k3j9x2m1q".

(** A session as [initial_visit] leaves it. *)
Definition visit : IUserVisit :=
  {| _id := 1; sessionId := sid; ipAddress := Some (js "203.0.113.7");
     userAgent := js "Mozilla/5.0";
     firstVisit := 1700000000000; lastActivity := 1700000000000;
     totalDuration := 0; locations := []; currentLocation := None;
     locationPermissionGranted := Some false; locationPermissionTime := None;
     deviceInfo := device; networkInfo := None;
     pageViews := 1; interactionCount := 0; searchQueries := [];
     savedLocationsCount := 0;
     city := Some (js "Pune"); country := Some (js "India");
     region := Some (js "Maharashtra");
     createdAt := 1700000000000; updatedAt := 1700000000000 |}.

Definition emptyStore : World := {| db := ∅; reads := 0; lookups := [] |}.

Definition store : World :=
  {| db := {[ sid := visit ]}; reads := 0; lookups := [] |}.

(** Five seconds after the sample session started, one second passing
    between two readings of the clock; ipapi.co answers with an error
    document that names no place. *)
Definition env : Env :=
  {| clock := fun k => 1700000005000 + 1000 * Z.of_nat k;
     ipapi := fun _ => Replied true
                (Some {| ip_city := None; ip_country_name := None;
                         ip_region := None |});
     freshId := 2 |}.

Definition noHeaders : Headers :=
  {| x_forwarded_for := None; x_real_ip := None; cf_connecting_ip := None;
     user_agent := None |}.

(** The payload [{}]. *)
Definition emptyData : EventData :=
  {| d_deviceInfo := None; d_networkInfo := None; d_granted := None;
     d_location := None; d_searchQuery := None; d_savedLocation := None |}.

(** The payload [{ granted: false }]. *)
Definition deniedData : EventData :=
  {| d_deviceInfo := None; d_networkInfo := None; d_granted := Some false;
     d_location := None; d_searchQuery := None; d_savedLocation := None |}.

Definition initialData : EventData :=
  {| d_deviceInfo := Some device; d_networkInfo := None; d_granted := None;
     d_location := None; d_searchQuery := None; d_savedLocation := None |}.

Definition sample : LocationInput :=
  {| in_latitude := 28.6139; in_longitude := 77.2090;
     in_accuracy := Some 12%float; in_altitude := None;
     in_altitudeAccuracy := None; in_heading := None; in_speed := None |}.

Definition sampleData : EventData :=
  {| d_deviceInfo := None; d_networkInfo := None; d_granted := None;
     d_location := Some sample; d_searchQuery := None;
     d_savedLocation := None |}.

Definition eventBody (s : option JsString) (type : string)
    (d : option EventData) : Body :=
  {| b_sessionId := s; b_type := Some (js type); b_data := d |}.

Definition event (s : option JsString) (type : string)
    (d : option EventData) : NextRequest :=
  {| headers := noHeaders; req_body := Some (eventBody s type d) |}.

(** Stand-ins for the engine's [Math], first-order around zero, to run
    the route pipeline on sample points. *)
Definition firstOrderMath : Page.JsMath :=
  {| Page.Math_sin := fun x => x;
     Page.Math_cos := fun _ => 1%float;
     Page.Math_atan2 := fun y x => (y / x)%float |}.

Definition newDelhi : Page.Point :=
  {| Page.longitude := 77.2090; Page.latitude := 28.6139 |}.

Definition rohini : Page.Point :=
  {| Page.longitude := 77.1025; Page.latitude := 28.7041 |}.

(** A routing service that cannot be reached. *)
Definition unreachableOsrm (_ : Page.Profile) (_ _ : Page.Point)
    : Fetched Page.OsrmJson := Rejected.

Definition noRoute : Page.RouteState :=
  {| Page.routeCoordinates := None; Page.routeInfo := None;
     Page.isCalculatingRoute := false; Page.routeError := None |}.



Definition fiveSearches : Page.RecentState :=
  {| Page.recentSearches :=
       [js "Pune"; js "Delhi"; js "Agra"; js "Goa"; js "Kochi"];
     Page.stored :=
       Some [js "Pune"; js "Delhi"; js "Agra"; js "Goa"; js "Kochi"] |}.

(** ** More samples *)

(** The headers of a request that came through a proxy. *)
Definition proxied : Headers :=
  {| x_forwarded_for := Some (js " 203.0.113.7 , 10.0.0.2");
     x_real_ip := Some (js "10.0.0.2"); cf_connecting_ip := None;
     user_agent := Some (js "Mozilla/5.0") |}.

(** The payload [{ searchQuery: "Pune" }]. *)
Definition searchPune : EventData :=
  {| d_deviceInfo := None; d_networkInfo := None; d_granted := None;
     d_location := None; d_searchQuery := Some (js "Pune");
     d_savedLocation := None |}.

(** The payload [{ granted: true, location: ... }]. *)
Definition grantedData : EventData :=
  {| d_deviceInfo := None; d_networkInfo := None; d_granted := Some true;
     d_location := Some sample; d_searchQuery := None;
     d_savedLocation := None |}.

(** A session id that has no record yet. *)
Definition newcomer : JsString := js "1700000004000-q8w7e6r5t".

(** A morning of the sample session. *)
Definition morning : list NextRequest :=
  [ event (Some sid) "location_permission" (Some grantedData);
    event (Some sid) "interaction" (Some searchPune);
    event (Some sid) "location_update" (Some sampleData);
    event (Some newcomer) "initial_visit" (Some initialData) ].

Definition tracker : Tracking.UserTracker :=
  {| Tracking.sessionId := sid; Tracking.watchId := None;
     Tracking.activityTimer := None;
     Tracking.locationUpdateInterval := None |}.

Definition freshBrowser : Tracking.Browser :=
  {| Tracking.nextWatch := 1; Tracking.nextTimer := 1;
     Tracking.watches := ∅; Tracking.timers := ∅;
     Tracking.listeners := [] |}.

Definition system : Tracking.System :=
  {| Tracking.server := store; Tracking.browser := freshBrowser |}.

(** A routing service that knows one way. *)
Definition oneWay : Page.OsrmRoute :=
  {| Page.geometry_coordinates :=
       Some [ (77.2090, 28.6139); (77.15, 28.66); (77.1025, 28.7041) ]%float;
     Page.o_distance := 14200; Page.o_duration := 1560 |}.

Definition oneWayOsrm (_ : Page.Profile) (_ _ : Page.Point)
    : Fetched Page.OsrmJson :=
  Replied true (Some {| Page.routes := Some [oneWay] |}).

Definition emptyPage : Page.PageState :=
  {| Page.suggest := Page.initialSuggest;
     Page.recent := fiveSearches;
     Page.endPoint := None; Page.endPointInfo := None;
     Page.tracked := [] |}.

(** A reading of decimal text, enough for the samples. *)
Definition sampleParseFloat (s : JsString) : float :=
  if bool_decide (s = js "18.52") then 18.52%float else 73.85%float.

Definition home : Locations.LocationBody :=
  {| Locations.b_name := Some (js "Home");
     Locations.b_address := Some (js "Pune, Maharashtra, India");
     Locations.b_coordinates :=
       Some {| Locations.in_lng := Some 73.85%float;
               Locations.in_lat := Some 18.52%float |} |}.

End Examples.

(* ===================================================================== *)
(** * The visit-event endpoint *)
(* ===================================================================== *)

Module VisitFacts.
Import Model Route.

Ltac post_unfold :=
  unfold POST, try_catch, bind, member, ret, throw, findOne,
    onInitialVisit, onLocationPermission, onLocationUpdate, onInteraction.

Ltac post_enter Hb Hs :=
  post_unfold; rewrite Hb, Hs;
  cbn beta iota delta [truthy negb default from_option id].

(** Decide the comparisons of one literal with another. *)
Ltac eval_lits :=
  repeat match goal with
  | |- context [is_lit (Some (js ?a)) ?b] =>
    let r := eval vm_compute in (is_lit (Some (js a)) b) in
    change (is_lit (Some (js a)) b) with r
  end.

(** ** The monad *)

Lemma bind_ret_l {A B} (a : A) (k : A -> M B) : bind (ret a) k = k a.
Proof. reflexivity. Qed.

Lemma bind_findOne {B} sid (k : option IUserVisit -> M B) w :
  bind (findOne sid) k w = k (db w !! sid) w.
Proof. reflexivity. Qed.

Lemma snd_bind_ret {A B} (m : M A) (f : A -> B) w :
  snd (bind m (fun a => ret (f a)) w) = snd (m w).
Proof. unfold bind, ret. destruct (m w) as [[a|e] w']; reflexivity. Qed.

Lemma snd_try_catch_ret {A} (m : M A) (x : A) w :
  snd (try_catch m (fun _ => ret x) w) = snd (m w).
Proof. unfold try_catch, ret. destruct (m w) as [[a|e] w']; reflexivity. Qed.

Lemma is_lit_true o lit : is_lit o lit = true -> o = Some (js lit).
Proof. unfold is_lit. apply bool_decide_eq_true_1. Qed.

Lemma is_lit_false o lit : is_lit o lit = false -> o <> Some (js lit).
Proof. unfold is_lit. apply bool_decide_eq_false_1. Qed.

Lemma elapsedSeconds_floor now first :
  1000 * elapsedSeconds now first <= now - first
    < 1000 * elapsedSeconds now first + 1000.
Proof.
  unfold elapsedSeconds.
  pose proof (Z.div_mod (now - first) 1000 ltac:(lia)).
  pose proof (Z.mod_pos_bound (now - first) 1000 ltac:(lia)). lia.
Qed.

(** ** Geo-enrichment *)

(** Geo-enrichment always returns, and touches neither the collection nor
    the clock. *)
Lemma getGeographicData_returns env ip w :
  exists g w', getGeographicData env ip w = (Ok g, w') /\
               db w' = db w /\ reads w' = reads w.
Proof.
  unfold getGeographicData.
  destruct (_ || _); [unfold ret; eauto|].
  unfold try_catch, bind, fetchIpapi, ret.
  destruct (ipapi env ip) as [|ok [data|]]; simpl; eauto.
Qed.


(** ** What each handler writes *)

(** A handler leaves the collection alone, or writes one document under
    the session id it was given. *)
Lemma onInitialVisit_effect env sid ip ua d o w :
  let r := onInitialVisit env sid ip ua d o w in
  match o with
  | Some _ => snd r = w
  | None =>
    db (snd r) = db w \/
    exists v', db (snd r) = <[sid := v']> (db w) /\ sessionId v' = sid
  end.
Proof.
  unfold onInitialVisit. destruct o as [v|]; [reflexivity|].
  unfold bind.
  destruct (getGeographicData_returns env ip w) as (g & w1 & -> & Hdb & _).
  unfold member. destruct d as [d|]; [|left; exact Hdb].
  unfold ret, createVisit, bind, newDate. simpl.
  destruct (d_deviceInfo d); simpl; [|left; exact Hdb].
  right. eexists. rewrite Hdb. split; reflexivity.
Qed.

Lemma onInitialVisit_created env sid ip ua d di w :
  d_deviceInfo d = Some di ->
  exists v',
    db (snd (onInitialVisit env sid ip ua (Some d) None w))
      = <[sid := v']> (db w).
Proof.
  intros Hdi. unfold onInitialVisit, bind.
  destruct (getGeographicData_returns env ip w) as (g & w1 & -> & Hdb & _).
  unfold member, ret, createVisit, bind, newDate. simpl. rewrite Hdi. simpl.
  eexists. rewrite Hdb. reflexivity.
Qed.

Lemma onInitialVisit_failed env sid ip ua d w :
  d ≫= d_deviceInfo = None ->
  db (snd (onInitialVisit env sid ip ua d None w)) = db w.
Proof.
  intros Hd. unfold onInitialVisit, bind.
  destruct (getGeographicData_returns env ip w) as (g & w1 & -> & Hdb & _).
  unfold member. destruct d as [d|]; [|exact Hdb]. simpl in Hd.
  unfold ret, createVisit, bind, newDate. simpl. rewrite Hd. exact Hdb.
Qed.

Lemma onLocationPermission_effect env d v w :
  let r := onLocationPermission env d (Some v) w in
  match d with
  | None => db (snd r) = db w
  | Some _ =>
    exists v', db (snd r) = <[sessionId v := v']> (db w) /\
      sessionId v' = sessionId v /\ firstVisit v' = firstVisit v /\
      locationPermissionTime v' = Some (clock env (reads w))
  end.
Proof.
  destruct v.
  unfold onLocationPermission, save, member, newDate, bind, ret, throw, set_db.
  destruct d as [d|]; [|reflexivity]. simpl.
  destruct (d_granted d) as [[|]|], (d_location d); simpl;
    eexists; (split; [reflexivity|]); repeat split.
Qed.

Lemma onLocationUpdate_effect env d v w :
  let r := onLocationUpdate env d (Some v) w in
  db (snd r) = db w \/
  exists v', db (snd r) = <[sessionId v := v']> (db w) /\
    sessionId v' = sessionId v /\ firstVisit v' = firstVisit v /\
    locationPermissionTime v' = locationPermissionTime v.
Proof.
  destruct v.
  unfold onLocationUpdate, save, member, newDate, bind, ret, throw, set_db.
  destruct d as [d|]; [|left; reflexivity]. simpl.
  destruct (d_location d); simpl; [|left; reflexivity].
  right. eexists. split; [reflexivity|]. repeat split.
Qed.

Lemma onInteraction_effect env d v w :
  let r := onInteraction env d (Some v) w in
  db (snd r) = db w \/
  exists v', db (snd r) = <[sessionId v := v']> (db w) /\
    sessionId v' = sessionId v /\ firstVisit v' = firstVisit v /\
    locationPermissionTime v' = locationPermissionTime v.
Proof.
  destruct v.
  unfold onInteraction, save, member, newDate, bind, ret, throw, set_db.
  destruct d as [d|]; [|left; reflexivity]. simpl.
  right.
  destruct (truthy (d_searchQuery d)), (d_savedLocation d) as [[|]|]; simpl;
    eexists; (split; [reflexivity|]); repeat split.
Qed.

(** ** The world after a request *)

Lemma POST_world_rejected env request w :
  (forall body, req_body request = Some body ->
     truthy (b_sessionId body) = false) ->
  snd (POST env request w) = w.
Proof.
  intros Hr. post_unfold. destruct (req_body request) as [body|]; [|reflexivity].
  rewrite (Hr body eq_refl). reflexivity.
Qed.

Lemma POST_world env request body sid w :
  req_body request = Some body ->
  b_sessionId body = Some sid -> sid <> [] ->
  snd (POST env request w) =
  snd ((if is_lit (b_type body) "initial_visit"
        then onInitialVisit env sid (getClientIP request)
               (orUnknown (user_agent (headers request))) (b_data body)
               (db w !! sid)
        else if is_lit (b_type body) "location_permission"
        then onLocationPermission env (b_data body) (db w !! sid)
        else if is_lit (b_type body) "location_update"
        then onLocationUpdate env (b_data body) (db w !! sid)
        else if is_lit (b_type body) "interaction"
        then onInteraction env (b_data body) (db w !! sid)
        else ret (db w !! sid)) w).
Proof.
  intros Hb Hs Hne. destruct sid as [|c r]; [congruence|].
  unfold POST. rewrite snd_try_catch_ret. unfold member.
  rewrite Hb, bind_ret_l, Hs.
  cbn beta iota delta [truthy negb default from_option id].
  rewrite bind_findOne, snd_bind_ret. reflexivity.
Qed.

(** Every request keeps the collection indexed by [sessionId]. *)
Lemma POST_preserves_indexed env request w :
  indexed (db w) -> indexed (db (snd (POST env request w))).
Proof.
  intros Hi.
  destruct (req_body request) as [body|] eqn:Hb;
    [|rewrite POST_world_rejected; [done | congruence]].
  destruct (truthy (b_sessionId body)) eqn:Ht;
    [|rewrite POST_world_rejected; [done | congruence]].
  destruct (b_sessionId body) as [[|c r]|] eqn:Hs; try discriminate.
  rewrite (POST_world env request body (c :: r)) by done.
  set (sid := c :: r) in *.
  assert (forall v', sessionId v' = sid -> indexed (<[sid := v']> (db w)))
    as Hins.
  { intros v' Hv' k v. rewrite lookup_insert.
    case_decide; [congruence | apply Hi]. }
  destruct (db w !! sid) as [v|] eqn:Hv.
  - pose proof (Hi _ _ Hv) as Hk.
    destruct (is_lit (b_type body) "initial_visit"); [done|].
    destruct (is_lit (b_type body) "location_permission").
    { pose proof (onLocationPermission_effect env (b_data body) v w) as He.
      cbv zeta in He. destruct (b_data body).
      - destruct He as (v' & -> & Hs' & _). rewrite Hk. apply Hins. congruence.
      - by rewrite He. }
    destruct (is_lit (b_type body) "location_update").
    { destruct (onLocationUpdate_effect env (b_data body) v w)
        as [-> | (v' & -> & Hs' & _)]; [done|].
      rewrite Hk. apply Hins. congruence. }
    destruct (is_lit (b_type body) "interaction"); [|done].
    destruct (onInteraction_effect env (b_data body) v w)
      as [-> | (v' & -> & Hs' & _)]; [done|].
    rewrite Hk. apply Hins. congruence.
  - destruct (is_lit (b_type body) "initial_visit").
    { pose proof (onInitialVisit_effect env sid (getClientIP request)
        (orUnknown (user_agent (headers request))) (b_data body) None w) as He.
      cbv zeta in He.
      destruct He as [-> | (v' & -> & Hs')]; [done | by apply Hins]. }
    by repeat (destruct (is_lit _ _)).
Qed.

Lemma indexed_empty : indexed ∅.
Proof. intros k v Hl. by rewrite lookup_empty in Hl. Qed.

(** Every collection the endpoint builds from an indexed one is indexed. *)
Lemma serve_indexed env requests w :
  indexed (db w) -> indexed (db (serve env requests w)).
Proof.
  revert w. induction requests as [|request rest IH]; intros w Hi; [done|].
  simpl. apply IH. by apply POST_preserves_indexed.
Qed.

(** ** Session creation *)

(** C1. Session creation is idempotent: when a record already exists for
    the session id of an [initial_visit] event, handling the event leaves
    the whole store as it was; no field of the record is written and no
    record is created. *)
Theorem initial_visit_existing_noop env request body sid v w :
  req_body request = Some body ->
  b_sessionId body = Some sid ->
  b_type body = Some (js "initial_visit") ->
  db w !! sid = Some v ->
  snd (POST env request w) = w /\
  db (snd (POST env request w)) !! sid = Some v.
Proof.
  intros Hb Hs Ht Hv.
  assert (snd (POST env request w) = w) as E.
  { post_enter Hb Hs. rewrite Ht.
    destruct sid as [|c r]; [reflexivity|].
    cbn beta iota delta [truthy negb default from_option id].
    rewrite Hv. eval_lits. reflexivity. }
  rewrite E. auto.
Qed.

Lemma initial_visit_existing_noop_witness :
  snd (POST Examples.env
         (Examples.event (Some Examples.sid) "initial_visit"
            (Some Examples.initialData)) Examples.store) = Examples.store /\
  db (snd (POST Examples.env
         (Examples.event (Some Examples.sid) "initial_visit"
            (Some Examples.initialData)) Examples.store)) !! Examples.sid
    = Some Examples.visit.
Proof.
  apply (initial_visit_existing_noop Examples.env _
           (Examples.eventBody (Some Examples.sid) "initial_visit"
              (Some Examples.initialData)) Examples.sid);
    reflexivity.
Defined.

(** The same [initial_visit] request handled a second time changes no
    record, whether the first try created the record, found it, or failed. *)
Lemma initial_visit_twice env request body w :
  req_body request = Some body ->
  b_type body = Some (js "initial_visit") ->
  let w1 := snd (POST env request w) in
  db (snd (POST env request w1)) = db w1.
Proof.
  intros Hb Ht w1.
  destruct (truthy (b_sessionId body)) eqn:Hs.
  2: { rewrite (POST_world_rejected env request w1); [done|].
       rewrite Hb. by intros ? [= <-]. }
  destruct (b_sessionId body) as [[|c r]|] eqn:Hsid; try discriminate.
  set (sid := c :: r) in *.
  assert (db w1 !! sid = None -> b_data body ≫= d_deviceInfo = None) as Hfail.
  { subst w1. rewrite (POST_world env request body sid w) by done.
    rewrite Ht. eval_lits.
    destruct (db w !! sid) as [v|] eqn:Hv; [simpl; congruence|].
    destruct (b_data body) as [d|]; [|done].
    change (Some d ≫= d_deviceInfo) with (d_deviceInfo d).
    destruct (d_deviceInfo d) as [di|] eqn:Hdi; [|done].
    destruct (onInitialVisit_created env sid (getClientIP request)
                (orUnknown (user_agent (headers request))) d di w Hdi)
      as (v' & ->).
    by rewrite lookup_insert_eq. }
  rewrite (POST_world env request body sid w1) by done.
  rewrite Ht. eval_lits.
  destruct (db w1 !! sid) as [v|] eqn:Hv1; [reflexivity|].
  apply onInitialVisit_failed. by apply Hfail.
Qed.

(** C2. An event of a type other than [initial_visit] whose session id has
    no record leaves the store as it was and is answered with the success
    shape: nothing is thrown, [success] is true, no record is created. *)
Theorem non_initial_missing_session_noop env request body sid w :
  req_body request = Some body ->
  b_sessionId body = Some sid -> sid <> [] ->
  b_type body = Some (js "location_permission") \/
  b_type body = Some (js "location_update") \/
  b_type body = Some (js "interaction") ->
  db w !! sid = None ->
  exists r, POST env request w = (Ok r, w) /\
    success r = true /\ status r = 200 /\
    data r = Some {| r_sessionId := None; r_id := None |}.
Proof.
  intros Hb Hs Hne Ht Hv. exists (okResponse None).
  split; [|repeat split].
  post_enter Hb Hs.
  destruct sid as [|c r]; [congruence|].
  cbn beta iota delta [truthy negb default from_option id]. rewrite Hv.
  destruct Ht as [-> | [-> | ->]]; reflexivity.
Qed.

Lemma non_initial_missing_session_noop_witness :
  exists r,
    POST Examples.env
      (Examples.event (Some Examples.sid) "interaction"
         (Some Examples.emptyData)) Examples.emptyStore
      = (Ok r, Examples.emptyStore) /\
    success r = true /\ status r = 200 /\
    data r = Some {| r_sessionId := None; r_id := None |}.
Proof.
  apply (non_initial_missing_session_noop Examples.env _
           (Examples.eventBody (Some Examples.sid) "interaction"
              (Some Examples.emptyData)) Examples.sid).
  - reflexivity.
  - reflexivity.
  - vm_compute. discriminate.
  - right. right. reflexivity.
  - reflexivity.
Defined.

(** C10. A request whose body carries no session id (absent, or the empty
    string) is answered with status 400 and [success] false, whatever its
    event type, and the store is left as it was. *)
Theorem missing_sessionId_rejected env request body w :
  req_body request = Some body ->
  truthy (b_sessionId body) = false ->
  exists r, POST env request w = (Ok r, w) /\
    status r = 400 /\ success r = false.
Proof.
  intros Hb Hs. exists badRequest. split; [|split; reflexivity].
  post_unfold. rewrite Hb, Hs. reflexivity.
Qed.

Lemma missing_sessionId_rejected_witness :
  exists r,
    POST Examples.env
      (Examples.event None "initial_visit" (Some Examples.initialData))
      Examples.store = (Ok r, Examples.store) /\
    status r = 400 /\ success r = false.
Proof.
  apply (missing_sessionId_rejected Examples.env _
           (Examples.eventBody None "initial_visit"
              (Some Examples.initialData)));
    reflexivity.
Defined.

(** ** Duration *)

(** C3, as the handler has it. After a [location_update] event that
    carries a location sample, and after an [interaction] event that
    carries a data payload, handled against an existing session, the stored
    [totalDuration] is the whole number of seconds (the floor of the
    milliseconds divided by 1000) between [firstVisit] and the reading of
    the clock taken for it; it is computed from [firstVisit], which stays
    as it was, and not from the previous [totalDuration]. The record found
    under the session id carries that id, as in every indexed collection
    ([serve_indexed]). *)
Theorem totalDuration_recomputed env request body sid d v w :
  req_body request = Some body ->
  b_sessionId body = Some sid -> sid <> [] ->
  b_data body = Some d ->
  db w !! sid = Some v -> sessionId v = sid ->
  (b_type body = Some (js "location_update") /\ is_Some (d_location d)) \/
  b_type body = Some (js "interaction") ->
  exists v',
    db (snd (POST env request w)) !! sid = Some v' /\
    firstVisit v' = firstVisit v /\
    let t := clock env (reads w + durationReading (b_type body)) in
    totalDuration v' = elapsedSeconds t (firstVisit v) /\
    1000 * totalDuration v' <= t - firstVisit v
      < 1000 * totalDuration v' + 1000.
Proof.
  intros Hb Hs Hne Hd Hv Hk Ht.
  destruct sid as [|c r]; [congruence|].
  destruct v as [i s ip ua fv la td ls cl pg pt di ni pv ic sq sc ci co re ca up].
  simpl in Hk. subst s.
  post_enter Hb Hs. rewrite Hv, Hd.
  unfold durationReading.
  destruct Ht as [[-> [loc Hl]] | ->]; eval_lits.
  - unfold newDate, save, bind, ret, set_db. simpl. rewrite Hl. simpl.
    rewrite lookup_insert_eq. eexists. split; [reflexivity|]. simpl.
    split; [reflexivity|].
    replace (reads w + 2)%nat with (S (S (reads w))) by lia.
    split; [reflexivity|]. apply elapsedSeconds_floor.
  - unfold newDate, save, bind, ret, set_db. simpl.
    destruct (truthy (d_searchQuery d)), (d_savedLocation d) as [[|]|]; simpl;
      rewrite lookup_insert_eq; (eexists; split; [reflexivity|]); simpl;
      (split; [reflexivity|]);
      replace (reads w + 1)%nat with (S (reads w)) by lia;
      (split; [reflexivity|]); apply elapsedSeconds_floor.
Qed.

Lemma totalDuration_recomputed_witness :
  exists v',
    db (snd (POST Examples.env
               (Examples.event (Some Examples.sid) "location_update"
                  (Some Examples.sampleData)) Examples.store))
      !! Examples.sid = Some v' /\
    firstVisit v' = 1700000000000 /\
    let t := 1700000007000 in
    totalDuration v' = elapsedSeconds t 1700000000000 /\
    1000 * totalDuration v' <= t - 1700000000000
      < 1000 * totalDuration v' + 1000.
Proof.
  apply (totalDuration_recomputed Examples.env _
           (Examples.eventBody (Some Examples.sid) "location_update"
              (Some Examples.sampleData)) Examples.sid Examples.sampleData
           Examples.visit Examples.store).
  - reflexivity.
  - reflexivity.
  - vm_compute. discriminate.
  - reflexivity.
  - reflexivity.
  - reflexivity.
  - left. split; [reflexivity|]. exists Examples.sample. reflexivity.
Defined.

(** C3 as stated fails: a [location_update] event without a location
    sample is handled against the existing session, answered with
    success, and the stored [totalDuration] stays 0 although every reading
    of the clock is at least five seconds after [firstVisit]. *)
Lemma location_update_without_sample_keeps_duration :
  let request :=
    Examples.event (Some Examples.sid) "location_update"
      (Some Examples.emptyData) in
  POST Examples.env request Examples.store
    = (Ok (okResponse (Some Examples.visit)), Examples.store) /\
  db Examples.store !! Examples.sid = Some Examples.visit /\
  forall k, totalDuration Examples.visit <>
            elapsedSeconds (clock Examples.env k) (firstVisit Examples.visit).
Proof.
  split; [vm_compute; reflexivity|]. split; [vm_compute; reflexivity|].
  intros k. unfold elapsedSeconds. simpl.
  assert (5 <= (1700000005000 + 1000 * Z.of_nat k - 1700000000000) / 1000).
  { apply Z.div_le_lower_bound; lia. }
  lia.
Qed.

(** ** The permission time *)

(** C6, as the handler has it. For the record of every session: a request
    that is not a [location_permission] event leaves its
    [locationPermissionTime] as it was, and every [location_permission]
    event with a data payload for that session, the first and the later
    ones alike, sets it to the reading of the clock taken when the event is
    handled. *)
Theorem locationPermissionTime_frame env request w k v :
  indexed (db w) -> db w !! k = Some v ->
  exists v',
    db (snd (POST env request w)) !! k = Some v' /\
    ((forall body, req_body request = Some body ->
        b_type body <> Some (js "location_permission")) ->
     locationPermissionTime v' = locationPermissionTime v) /\
    (forall body d, req_body request = Some body ->
       b_sessionId body = Some k -> k <> [] ->
       b_type body = Some (js "location_permission") ->
       b_data body = Some d ->
       locationPermissionTime v' = Some (clock env (reads w))).
Proof.
  intros Hi Hv.
  (* requests that write nothing *)
  match goal with |- ?G =>
    assert (db (snd (POST env request w)) = db w ->
            (forall body, req_body request = Some body ->
               truthy (b_sessionId body) = false \/
               b_sessionId body <> Some k \/
               b_type body <> Some (js "location_permission") \/
               b_data body = None) -> G) as Hsame
  end.
  { intros E Hn. exists v. rewrite E. split; [done|]. split; [done|].
    intros body d Hb Hs Hne Ht Hd.
    destruct (Hn body Hb) as [H|[H|[H|H]]]; try congruence.
    rewrite Hs in H. by destruct k. }
  destruct (req_body request) as [body|] eqn:Hb.
  2: { apply Hsame; [|discriminate]. rewrite POST_world_rejected; [done|].
       rewrite Hb. discriminate. }
  destruct (truthy (b_sessionId body)) eqn:Ht.
  2: { apply Hsame.
       - rewrite POST_world_rejected; [done|]. rewrite Hb. by intros ? [= <-].
       - intros ? [= <-]. by left. }
  destruct (b_sessionId body) as [[|c r]|] eqn:Hs; try discriminate.
  set (sid := c :: r) in *.
  pose proof (POST_world env request body sid w Hb Hs ltac:(done)) as Hw.
  (* a write under another session id leaves the document of [k] alone *)
  match goal with |- ?G =>
    assert (forall v', db (snd (POST env request w)) = <[sid := v']> (db w) ->
              sid <> k -> G) as Hother
  end.
  { intros v' E Hne. exists v. rewrite E.
    rewrite lookup_insert_ne by done. split; [done|]. split; [done|].
    intros ? ? [= <-]. congruence. }
  (* a write that keeps the permission time *)
  match goal with |- ?G =>
    assert (forall v', db (snd (POST env request w)) = <[sid := v']> (db w) ->
              b_type body <> Some (js "location_permission") ->
              (sid = k -> locationPermissionTime v' = locationPermissionTime v) ->
              G) as Hkeep
  end.
  { intros v' E Hty Hpt.
    destruct (decide (sid = k)) as [Heq|Hne]; [|by eapply Hother].
    exists v'. rewrite E, Heq, lookup_insert_eq. split; [done|]. split; [auto|].
    intros ? ? [= <-]. congruence. }
  assert (forall a b, js a <> js b -> is_lit (b_type body) a = true ->
            b_type body <> Some (js b)) as Hlit.
  { intros a b Hab Ha%is_lit_true. congruence. }
  destruct (db w !! sid) as [v0|] eqn:Hv0.
  - pose proof (Hi _ _ Hv0) as Hk.
    assert (sid = k -> v0 = v) as Hvv by (intros ->; congruence).
    destruct (is_lit (b_type body) "initial_visit") eqn:T1.
    { apply Hsame; [by rewrite Hw|]. intros ? [= <-].
      right; right; left. (eapply Hlit; [|eassumption]; by vm_compute). }
    destruct (is_lit (b_type body) "location_permission") eqn:T2.
    { pose proof (onLocationPermission_effect env (b_data body) v0 w) as He.
      cbv zeta in He. rewrite <- Hw in He.
      destruct (b_data body) as [d|] eqn:Hd.
      - destruct He as (v' & E & Hs' & _ & Hpt). rewrite Hk in E.
        destruct (decide (sid = k)) as [Heq|Hne]; [|by eapply Hother].
        exists v'. rewrite E, Heq, lookup_insert_eq. split; [done|]. split.
        + intros Hn. apply is_lit_true in T2. by destruct (Hn body).
        + done.
      - apply Hsame; [done|]. intros ? [= <-]. by repeat right. }
    destruct (is_lit (b_type body) "location_update") eqn:T3.
    { destruct (onLocationUpdate_effect env (b_data body) v0 w)
        as [E | (v' & E & _ & _ & Hpt)]; rewrite <- Hw in E.
      - apply Hsame; [done|]. intros ? [= <-]. right; right; left.
        (eapply Hlit; [|eassumption]; by vm_compute).
      - rewrite Hk in E.
        eapply Hkeep; [done | (eapply Hlit; [|eassumption]; by vm_compute) |].
        intros Heq. rewrite Hpt. f_equal. auto. }
    destruct (is_lit (b_type body) "interaction") eqn:T4.
    { destruct (onInteraction_effect env (b_data body) v0 w)
        as [E | (v' & E & _ & _ & Hpt)]; rewrite <- Hw in E.
      - apply Hsame; [done|]. intros ? [= <-]. right; right; left.
        (eapply Hlit; [|eassumption]; by vm_compute).
      - rewrite Hk in E.
        eapply Hkeep; [done | (eapply Hlit; [|eassumption]; by vm_compute) |].
        intros Heq. rewrite Hpt. f_equal. auto. }
    apply Hsame; [by rewrite Hw|]. intros ? [= <-]. right; right; left.
    by apply is_lit_false.
  - assert (sid <> k) as Hne by (intros ->; congruence).
    destruct (is_lit (b_type body) "initial_visit") eqn:T1.
    { pose proof (onInitialVisit_effect env sid (getClientIP request)
        (orUnknown (user_agent (headers request))) (b_data body) None w) as He.
      cbv zeta in He. rewrite <- Hw in He.
      destruct He as [E | (v' & E & _)]; [|by eapply Hother].
      apply Hsame; [done|]. intros ? [= <-]. right; left. congruence. }
    apply Hsame.
    + rewrite Hw. by repeat (destruct (is_lit _ _)).
    + intros ? [= <-]. right; left. congruence.
Qed.

Lemma indexed_sample_store : indexed (db Examples.store).
Proof.
  intros k v Hl. change (db Examples.store) with
    ({[ Examples.sid := Examples.visit ]} : gmap JsString IUserVisit) in Hl.
  apply lookup_singleton_Some in Hl as [<- <-]. reflexivity.
Defined.

Lemma locationPermissionTime_frame_witness :
  exists v',
    db (snd (POST Examples.env
               (Examples.event (Some Examples.sid) "location_permission"
                  (Some Examples.deniedData)) Examples.store))
      !! Examples.sid = Some v' /\
    locationPermissionTime v' = Some 1700000005000.
Proof.
  destruct (locationPermissionTime_frame Examples.env
              (Examples.event (Some Examples.sid) "location_permission"
                 (Some Examples.deniedData))
              Examples.store Examples.sid Examples.visit
              indexed_sample_store eq_refl) as (v' & Hl & _ & Hset).
  exists v'. split; [exact Hl|].
  apply (Hset _ Examples.deniedData eq_refl); try reflexivity.
  vm_compute. discriminate.
Defined.

(** C6 as stated fails: a second [location_permission] event for a
    session whose permission time was set by a first one, three clock
    readings earlier, sets the time again. *)
Lemma second_permission_event_rewrites_time :
  let request :=
    Examples.event (Some Examples.sid) "location_permission"
      (Some Examples.deniedData) in
  let w1 := snd (POST Examples.env request Examples.store) in
  let w2 := snd (POST Examples.env request w1) in
  locationPermissionTime <$> db w1 !! Examples.sid
    = Some (Some 1700000005000) /\
  locationPermissionTime <$> db w2 !! Examples.sid
    = Some (Some 1700000008000).
Proof. split; vm_compute; reflexivity. Qed.

(** ** Geo-enrichment *)




End VisitFacts.

(* ===================================================================== *)
(** * The page: routes, suggestions, recent searches *)
(* ===================================================================== *)

Module PageFacts.
Import Page.

Section RouteFacts.
Context `{JsMath}.
Local Open Scope float_scope.

(** The distance function of the page is the haversine formula with the
    Earth radius 6,371,000 m. *)
Lemma calculateDistance_haversine p1 p2 :
  calculateDistance p1 p2 = spec_haversine 6371000 p1 p2.
Proof. reflexivity. Qed.

Lemma routeFromService_failed o :
  routingFailed o = true -> routeFromService o = None.
Proof.
  destruct o as [|[|] [[[[|route rs]|]]|]]; simpl; congruence.
Qed.

(** C4. When the routing request fails (rejected fetch: transport failure
    or timeout; non-2xx status; no candidate route), the route produced is
    the two-point path from start to end, latitude first; its distance is
    the haversine distance between them with Earth radius 6,371,000 m; its
    duration is that distance divided by 1.4 for walking and by 13.89 for
    road. *)
Theorem fallback_is_direct_path osrm start end_ routeType st :
  routingFailed (osrm (profileOf routeType) start end_) = true ->
  let st' := getRoute osrm (Some start) (Some end_) routeType st in
  let d := spec_haversine 6371000 start end_ in
  routeCoordinates st' =
    Some [ (latitude start, longitude start);
           (latitude end_, longitude end_) ] /\
  routeInfo st' =
    Some {| distance := d; duration := d / spec_fallbackSpeed routeType |}.
Proof.
  intros Hf. destruct routeType; simpl in Hf |- *.
  - rewrite (routeFromService_failed _ Hf). split; reflexivity.
  - unfold getWalkingRoute. rewrite (routeFromService_failed _ Hf).
    split; reflexivity.
Qed.

End RouteFacts.

Lemma fallback_is_direct_path_witness :
  let st' := @getRoute Examples.firstOrderMath Examples.unreachableOsrm
               (Some Examples.newDelhi) (Some Examples.rohini) road
               Examples.noRoute in
  let d := @spec_haversine Examples.firstOrderMath 6371000
             Examples.newDelhi Examples.rohini in
  routeCoordinates st' =
    Some [ (28.6139, 77.2090); (28.7041, 77.1025) ]%float /\
  routeInfo st' = Some {| distance := d; duration := (d / 13.89)%float |}.
Proof.
  apply (@fallback_is_direct_path Examples.firstOrderMath
           Examples.unreachableOsrm Examples.newDelhi Examples.rohini road
           Examples.noRoute).
  reflexivity.
Defined.

(** ** Suggestions *)

Lemma length_trimStart s : (length (trimStart s) <= length s)%nat.
Proof.
  induction s as [|c r IH]; simpl; [lia|].
  destruct (isWhiteSpace c); simpl; lia.
Qed.

Lemma length_trim s : (length (trim s) <= length s)%nat.
Proof.
  unfold trim. rewrite length_rev.
  etransitivity; [apply length_trimStart|]. rewrite length_rev.
  apply length_trimStart.
Qed.

(** C7, as the page has it. For every query whose trimmed form is empty or
    whose length before trimming is below 2, the suggestion list is
    cleared, the panel is hidden and no request is sent; for every query
    whose trimmed length is 2 or more a request is sent for it. *)
Theorem getSuggestions_guard query st :
  (trim query = [] \/ (length query < 2)%nat ->
   exists st', getSuggestions query st = (st', None) /\
     searchSuggestions st' = [] /\ showSuggestions st' = false) /\
  ((2 <= length (trim query))%nat ->
   snd (getSuggestions query st) = Some query).
Proof.
  unfold getSuggestions, tooShort. split.
  - intros [-> | Hl].
    + eexists. split; [reflexivity|]. split; reflexivity.
    + apply Nat.ltb_lt in Hl. rewrite Hl.
      destruct (trim query); eexists; (split; [reflexivity|]);
        split; reflexivity.
  - intros Hl. pose proof (length_trim query) as Hle.
    destruct (trim query) as [|c r]; [simpl in Hl; lia|].
    destruct (Nat.ltb_spec (length query) 2); [lia|reflexivity].
Qed.

Lemma getSuggestions_guard_witness :
  snd (getSuggestions (js "pun") initialSuggest) = Some (js "pun").
Proof.
  apply (getSuggestions_guard (js "pun") initialSuggest). vm_compute. lia.
Defined.

(** C7 as stated fails: the query ["a "] has a trimmed form of one
    character, and a request is sent for it. *)
Lemma padded_single_character_is_requested :
  (length (trim (js "a ")) < 2)%nat /\
  snd (getSuggestions (js "a ") initialSuggest) = Some (js "a ").
Proof. split; [vm_compute; lia | reflexivity]. Qed.




(** ** Recent searches *)

Lemma filter_ne_absent (q : JsString) (l : list JsString) :
  q ∉ l -> filter (fun s => s <> q) l = l.
Proof.
  induction l as [|x r IH]; [reflexivity|].
  intros Hn. apply not_elem_of_cons in Hn as [Hx Hr].
  rewrite filter_cons_True by congruence. by rewrite IH.
Qed.

Lemma filter_ne_present (q : JsString) (l : list JsString) :
  q ∈ l -> (length (filter (fun s => s <> q) l) < length l)%nat.
Proof.
  induction l as [|x r IH]; [by intros ?%elem_of_nil|].
  intros Hin. destruct (decide (x = q)) as [->|Hne].
  - rewrite filter_cons_False by (intros Hq; by apply Hq).
    pose proof (length_filter (fun s => s <> q) r). simpl. lia.
  - rewrite filter_cons_True by done. simpl.
    apply elem_of_cons in Hin as [?|Hin]; [congruence|].
    specialize (IH Hin). lia.
Qed.

(** C9. Saving a query puts it at the front of the recent-search list,
    removes every earlier entry equal to it, so that saving a query already
    in the list does not lengthen it, and keeps at most 5 entries: a query
    not yet in the list is followed by the first four earlier entries, the
    oldest of five being dropped. The list is stored as it is displayed. *)
Theorem saveRecentSearch_bounded query st :
  let recent := recentSearches st in
  let st' := saveRecentSearch true query st in
  let updated := recentSearches st' in
  stored st' = Some updated /\
  head updated = Some query /\
  tail updated = take 4 (filter (fun s => s <> query) recent) /\
  (query ∉ tail updated) /\
  (length updated <= 5)%nat /\
  (query ∈ recent -> (length updated <= length recent)%nat) /\
  (query ∉ recent -> updated = query :: take 4 recent).
Proof.
  cbv zeta. unfold saveRecentSearch. cbn [recentSearches stored].
  change (take 5 (query :: ?l)) with (query :: take 4 l). cbn [head tail].
  repeat split.
  - intros Hin%subseteq_take%list_elem_of_filter. by destruct Hin.
  - cbn [length]. rewrite length_take. lia.
  - intros Hin%filter_ne_present. cbn [length]. rewrite length_take. lia.
  - intros Hn. by rewrite filter_ne_absent.
Qed.

Lemma saveRecentSearch_bounded_witness :
  recentSearches (saveRecentSearch true (js "Leh") Examples.fiveSearches)
    = [js "Leh"; js "Pune"; js "Delhi"; js "Agra"; js "Goa"].
Proof.
  apply (saveRecentSearch_bounded (js "Leh") Examples.fiveSearches).
  vm_compute. intros Hin.
  repeat (apply elem_of_cons in Hin as [Hin|Hin]; [discriminate Hin|]).
  by apply elem_of_nil in Hin.
Defined.

End PageFacts.

(* ===================================================================== *)
(** * Strings: trimming and cutting at a comma *)
(* ===================================================================== *)

Module JsFacts.

Lemma beforeComma_no_comma s : 44%N ∉ beforeComma s.
Proof.
  induction s as [|c r IH]; simpl; [apply not_elem_of_nil|].
  destruct (N.eqb_spec c 44); [apply not_elem_of_nil|].
  apply not_elem_of_cons. split; [congruence | exact IH].
Qed.

Lemma elem_of_rev (x : N) l : x ∈ rev l <-> x ∈ l.
Proof. rewrite !list_elem_of_In. symmetry. apply in_rev. Qed.

Lemma elem_of_trimStart x s : x ∈ trimStart s -> x ∈ s.
Proof.
  induction s as [|c r IH]; simpl; [done|].
  destruct (isWhiteSpace c); [|done]. intros H%IH. by apply elem_of_cons; right.
Qed.

Lemma elem_of_trim x s : x ∈ trim s -> x ∈ s.
Proof.
  unfold trim. intros H.
  apply (proj1 (elem_of_rev _ _)), elem_of_trimStart in H.
  apply (proj1 (elem_of_rev _ _)) in H. by apply elem_of_trimStart.
Qed.

Lemma trimStart_head s c r : trimStart s = c :: r -> isWhiteSpace c = false.
Proof.
  induction s as [|x t IH]; simpl; [discriminate|].
  destruct (isWhiteSpace x) eqn:E; [exact IH | congruence].
Qed.

Lemma trim_last s c : last (trim s) = Some c -> isWhiteSpace c = false.
Proof.
  unfold trim.
  destruct (trimStart (rev (trimStart s))) as [|x t] eqn:E; [discriminate|].
  simpl. rewrite last_snoc. intros [= <-]. by eapply trimStart_head.
Qed.

Lemma trimStart_id s :
  (forall c r, s = c :: r -> isWhiteSpace c = false) -> trimStart s = s.
Proof.
  destruct s as [|c r]; [done|]. intros H. simpl.
  by rewrite (H c r eq_refl).
Qed.

Lemma trim_head s c r : trim s = c :: r -> isWhiteSpace c = false.
Proof.
  unfold trim. intros E.
  destruct (trimStart s) as [|x t] eqn:Es; [discriminate E|].
  pose proof (trimStart_head _ _ _ Es) as Hx.
  (* the white space removed at the end lies after [x] *)
  assert (exists u, rev (trimStart (rev (x :: t))) = x :: u) as [u Hu].
  { clear E Es. induction t as [|y t IH] using rev_ind.
    - simpl. rewrite Hx. by eexists.
    - rewrite app_comm_cons, rev_unit.
      cbn [trimStart]. destruct (isWhiteSpace y); [exact IH|].
      change (rev (y :: rev (x :: t))) with (rev (rev (x :: t)) ++ [y]).
      rewrite rev_involutive. by eexists. }
  rewrite Hu in E. by injection E as <- _.
Qed.


Lemma beforeComma_prefix s : beforeComma s `prefix_of` s.
Proof.
  induction s as [|c r IH]; simpl; [done|].
  destruct (N.eqb c 44); [apply prefix_nil | by apply prefix_cons].
Qed.

End JsFacts.

(* ===================================================================== *)
(** * The visit-event endpoint: records over time, answers, reading *)
(* ===================================================================== *)

Module VisitExtras.
Import Model Route VisitFacts JsFacts.

Lemma extends_refl v : extends v v.
Proof. unfold extends. repeat split; reflexivity. Qed.

Lemma extends_trans v1 v2 v3 : extends v1 v2 -> extends v2 v3 -> extends v1 v3.
Proof.
  unfold extends. intros H12 H23.
  destruct H12 as (?&?&?&?&?&?&?&?&?&?&?&?&?&?&?&?).
  destruct H23 as (?&?&?&?&?&?&?&?&?&?&?&?&?&?&?&?).
  repeat split; try congruence; try (etransitivity; eassumption).
Qed.

Ltac handler_unfold :=
  unfold onLocationPermission, onLocationUpdate, onInteraction,
    save, member, newDate, bind, ret, throw, set_db.

Ltac later_written :=
  right; eexists; split; [reflexivity|]; split;
  [ unfold extends; simpl; repeat split; try reflexivity; try lia;
    try (by eexists)
  | unfold coherent; simpl; intros Hc; rewrite ?last_snoc; done ].

Lemma onLocationPermission_later env d v w :
  laterState v w (snd (onLocationPermission env d (Some v) w)).
Proof.
  destruct v. handler_unfold.
  destruct d as [d|]; [|by left]. simpl.
  destruct (d_granted d) as [[|]|], (d_location d); simpl; later_written.
Qed.

Lemma onLocationUpdate_later env d v w :
  laterState v w (snd (onLocationUpdate env d (Some v) w)).
Proof.
  destruct v. handler_unfold.
  destruct d as [d|]; [|by left]. simpl.
  destruct (d_location d); simpl; [|by left]. later_written.
Qed.

Lemma onInteraction_later env d v w :
  laterState v w (snd (onInteraction env d (Some v) w)).
Proof.
  destruct v. handler_unfold.
  destruct d as [d|]; [|by left]. simpl.
  destruct (truthy (d_searchQuery d)), (d_savedLocation d) as [[|]|]; simpl;
    later_written.
Qed.

Lemma onInitialVisit_fresh env sid ip ua d w :
  let r := onInitialVisit env sid ip ua d None w in
  db (snd r) = db w \/
  exists v', db (snd r) = <[sid := v']> (db w) /\ sessionId v' = sid /\
             coherent v'.
Proof.
  unfold onInitialVisit, bind.
  destruct (getGeographicData_returns env ip w) as (g & w1 & -> & Hdb & _).
  unfold member. destruct d as [d|]; [|left; exact Hdb].
  unfold ret, createVisit, bind, newDate. simpl.
  destruct (d_deviceInfo d); simpl; [|left; exact Hdb].
  right. eexists. rewrite Hdb. repeat split.
Qed.

(** The collection after a request: it is the old one, or the old one
    with one document written under the session id of the request. *)
Lemma POST_writes env request w :
  indexed (db w) ->
  let w' := snd (POST env request w) in
  db w' = db w \/
  exists body sid v',
    req_body request = Some body /\ b_sessionId body = Some sid /\
    db w' = <[sid := v']> (db w) /\ sessionId v' = sid /\
    match db w !! sid with
    | Some v => extends v v' /\ (coherent v -> coherent v')
    | None => coherent v'
    end.
Proof.
  intros Hi w'. subst w'.
  destruct (req_body request) as [body|] eqn:Hb;
    [|left; rewrite POST_world_rejected; [done | congruence]].
  destruct (truthy (b_sessionId body)) eqn:Ht;
    [|left; rewrite POST_world_rejected; [done | congruence]].
  destruct (b_sessionId body) as [[|c r]|] eqn:Hs; try discriminate.
  rewrite (POST_world env request body (c :: r)) by done.
  set (sid := c :: r) in *.
  assert (forall v m, db w !! sid = Some v -> laterState v w m ->
    db m = db w \/
    exists body0 sid0 v', Some body = Some body0 /\ b_sessionId body0 = Some sid0 /\
      db m = <[sid0 := v']> (db w) /\ sessionId v' = sid0 /\
      match db w !! sid0 with
      | Some v => extends v v' /\ (coherent v -> coherent v')
      | None => coherent v'
      end) as Hlater.
  { intros v m Hv [E | (v' & E & Hx & Hc)]; [by left|].
    right. exists body, sid, v'. rewrite (Hi _ _ Hv) in E.
    repeat split; try done.
    - destruct Hx as (_ & -> & _). by apply Hi.
    - by rewrite Hv. }
  destruct (db w !! sid) as [v|] eqn:Hv.
  - destruct (is_lit (b_type body) "initial_visit"); [by left|].
    destruct (is_lit (b_type body) "location_permission");
      [eapply Hlater; [done | apply onLocationPermission_later]|].
    destruct (is_lit (b_type body) "location_update");
      [eapply Hlater; [done | apply onLocationUpdate_later]|].
    destruct (is_lit (b_type body) "interaction");
      [eapply Hlater; [done | apply onInteraction_later]|].
    by left.
  - destruct (is_lit (b_type body) "initial_visit").
    { destruct (onInitialVisit_fresh env sid (getClientIP request)
        (orUnknown (user_agent (headers request))) (b_data body) w)
        as [E | (v' & E & Hs' & Hc)]; [by left|].
      right. exists body, sid, v'. by rewrite Hv. }
    left. by repeat (destruct (is_lit _ _)).
Qed.

Lemma POST_extends env request w k v :
  indexed (db w) -> db w !! k = Some v ->
  exists v', db (snd (POST env request w)) !! k = Some v' /\ extends v v'.
Proof.
  intros Hi Hv.
  destruct (POST_writes env request w Hi)
    as [E | (body & sid & v' & _ & _ & E & _ & Hm)]; rewrite E.
  - exists v. split; [done | apply extends_refl].
  - destruct (decide (sid = k)) as [->|Hne].
    + rewrite Hv in Hm. exists v'. rewrite lookup_insert_eq.
      split; [done | apply Hm].
    + exists v. rewrite lookup_insert_ne by done.
      split; [done | apply extends_refl].
Qed.

Lemma POST_coherent env request w :
  indexed (db w) ->
  (forall k v, db w !! k = Some v -> coherent v) ->
  forall k v, db (snd (POST env request w)) !! k = Some v -> coherent v.
Proof.
  intros Hi Hc k v.
  destruct (POST_writes env request w Hi)
    as [E | (body & sid & v' & _ & _ & E & _ & Hm)]; rewrite E; [apply Hc|].
  rewrite lookup_insert. case_decide as Hk; [|apply Hc].
  intros [= <-]. destruct (db w !! sid) as [v0|] eqn:Hv0; [|done].
  destruct Hm as [_ Hm]. apply Hm. by eapply Hc.
Qed.

(** X1. across any sequence of requests a record is never removed, and its
    later state keeps what was captured at creation, has only appended to
    [locations] and [searchQueries], and has not decreased a counter. *)
Theorem serve_extends env requests w k v :
  indexed (db w) -> db w !! k = Some v ->
  exists v', db (serve env requests w) !! k = Some v' /\ extends v v'.
Proof.
  revert w v. induction requests as [|request rest IH]; intros w v Hi Hv.
  - exists v. split; [done | apply extends_refl].
  - simpl. destruct (POST_extends env request w k v Hi Hv) as (v1 & Hv1 & Hx1).
    destruct (IH _ v1 (POST_preserves_indexed env request w Hi) Hv1)
      as (v2 & Hv2 & Hx2).
    exists v2. split; [done | by eapply extends_trans].
Qed.

(** X2. if [currentLocation] of every record of a collection is the last
    element of its [locations] (as in the empty collection), the same
    holds of every record after any sequence of requests. *)
Theorem serve_coherent env requests w :
  indexed (db w) ->
  (forall k v, db w !! k = Some v -> coherent v) ->
  forall k v, db (serve env requests w) !! k = Some v ->
    currentLocation v = last (locations v).
Proof.
  revert w. induction requests as [|request rest IH]; intros w Hi Hc k v.
  - apply Hc.
  - simpl. apply IH.
    + by apply POST_preserves_indexed.
    + by apply POST_coherent.
Qed.

(** X3. a request leaves the records of all other sessions as they are. *)
Theorem POST_other_sessions_untouched env request w k :
  indexed (db w) ->
  (forall body, req_body request = Some body -> b_sessionId body <> Some k) ->
  db (snd (POST env request w)) !! k = db w !! k.
Proof.
  intros Hi Hk.
  destruct (POST_writes env request w Hi)
    as [E | (body & sid & v' & Hb & Hs & E & _)]; rewrite E; [done|].
  apply lookup_insert_ne. intros ->. by apply (Hk body).
Qed.

Lemma fst_try_catch_ret {A} (m : M A) (x : A) w :
  fst (try_catch m (fun _ => ret x) w)
  = match fst (m w) with Ok a => Ok a | Thrown _ => Ok x end.
Proof. unfold try_catch, ret. destruct (m w) as [[a|e] w']; reflexivity. Qed.

Lemma fst_bind_ret {A B} (m : M A) (f : A -> B) w :
  fst (bind m (fun a => ret (f a)) w)
  = match fst (m w) with Ok a => Ok (f a) | Thrown e => Thrown e end.
Proof. unfold bind, ret. destruct (m w) as [[a|e] w']; reflexivity. Qed.

(** X4. the endpoint answers every request, and only in three ways: 200
    with [success] true, 400 or 500 with [success] false; it answers 400
    exactly when the body is readable and carries no session id. *)
Theorem POST_always_answers env request w :
  exists r, fst (POST env request w) = Ok r /\
    (status r = 200 /\ success r = true \/
     status r = 400 /\ success r = false \/
     status r = 500 /\ success r = false) /\
    (status r = 400 <->
     exists body, req_body request = Some body /\
                  truthy (b_sessionId body) = false).
Proof.
  unfold POST. rewrite fst_try_catch_ret. unfold member.
  destruct (req_body request) as [body|].
  2: { exists serverError. split; [reflexivity|]. split; [auto|].
       split; [discriminate | by intros (? & ? & _)]. }
  rewrite bind_ret_l.
  destruct (truthy (b_sessionId body)) eqn:Ht; simpl.
  2: { exists badRequest. split; [reflexivity|]. split; [auto|].
       split; [eauto | done]. }
  unfold findOne at 1. unfold bind at 1. rewrite fst_bind_ret.
  match goal with |- context [fst ?x] => destruct (fst x) as [uv|e] end.
  - exists (okResponse uv). split; [reflexivity|]. split; [auto|].
    split; [discriminate|]. intros (? & [= <-] & ?). congruence.
  - exists serverError. split; [reflexivity|]. split; [auto|].
    split; [discriminate|]. intros (? & [= <-] & ?). congruence.
Qed.

(** [POST] on a readable body with a session id, in terms of [dispatch]. *)
Lemma POST_dispatch env request body sid w :
  req_body request = Some body ->
  b_sessionId body = Some sid -> sid <> [] ->
  POST env request w =
  match dispatch env request body sid (db w !! sid) w with
  | (Ok userVisit, w') => (Ok (okResponse userVisit), w')
  | (Thrown _, w') => (Ok serverError, w')
  end.
Proof.
  intros Hb Hs Hne. destruct sid as [|c r]; [congruence|].
  unfold POST, try_catch, member. rewrite Hb, bind_ret_l, Hs.
  cbn beta iota delta [truthy negb default from_option id].
  rewrite bind_findOne.
  fold (dispatch env request body (c :: r) (db w !! (c :: r))).
  unfold bind, ret.
  by destruct (dispatch env request body (c :: r) (db w !! (c :: r)) w)
    as [[uv|e] w'].
Qed.

Lemma dispatch_thrown env request body sid o w e :
  fst (dispatch env request body sid o w) = Thrown e ->
  db (snd (dispatch env request body sid o w)) = db w.
Proof.
  unfold dispatch.
  destruct (is_lit (b_type body) "initial_visit").
  { destruct o as [v|]; [by unfold onInitialVisit, ret|].
    unfold onInitialVisit, bind.
    destruct (getGeographicData_returns env (getClientIP request) w)
      as (g & w1 & -> & Hdb & _).
    unfold member. destruct (b_data body) as [d|]; [|by intros _].
    unfold ret, createVisit, bind, newDate. simpl.
    destruct (d_deviceInfo d); simpl; [discriminate | by intros _]. }
  destruct (is_lit (b_type body) "location_permission").
  { destruct o as [v|]; [|done]. destruct v.
    unfold onLocationPermission, save, member, newDate, bind, ret, throw, set_db.
    destruct (b_data body) as [d|]; [|done]. simpl.
    by destruct (d_granted d) as [[|]|], (d_location d). }
  destruct (is_lit (b_type body) "location_update").
  { destruct o as [v|]; [|done]. destruct v.
    unfold onLocationUpdate, save, member, newDate, bind, ret, throw, set_db.
    destruct (b_data body) as [d|]; [|done]. simpl.
    by destruct (d_location d). }
  destruct (is_lit (b_type body) "interaction"); [|done].
  destruct o as [v|]; [|done]. destruct v.
  unfold onInteraction, save, member, newDate, bind, ret, throw, set_db.
  destruct (b_data body) as [d|]; [|done]. simpl.
  by destruct (truthy (d_searchQuery d)), (d_savedLocation d) as [[|]|].
Qed.

(** X5. only a request answered 200 can have written: whenever the answer
    is 400 or 500 the collection is as it was. The answer is 500 when the
    body cannot be read, when an event for an existing session carries no
    data payload, and when an [initial_visit] for a new session id carries
    no [deviceInfo]. *)
Theorem POST_failures_write_nothing env request w :
  (forall r, fst (POST env request w) = Ok r -> status r <> 200 ->
     db (snd (POST env request w)) = db w) /\
  (req_body request = None \/
   (exists body sid,
      req_body request = Some body /\ b_sessionId body = Some sid /\
      sid <> [] /\
      ((is_Some (db w !! sid) /\ b_data body = None /\
        (b_type body = Some (js "location_permission") \/
         b_type body = Some (js "location_update") \/
         b_type body = Some (js "interaction"))) \/
       (db w !! sid = None /\ b_type body = Some (js "initial_visit") /\
        b_data body ≫= d_deviceInfo = None))) ->
   fst (POST env request w) = Ok serverError).
Proof.
  split.
  - intros r Hr Hst.
    destruct (req_body request) as [body|] eqn:Hb;
      [|rewrite POST_world_rejected; [done | congruence]].
    destruct (truthy (b_sessionId body)) eqn:Ht;
      [|rewrite POST_world_rejected; [done | congruence]].
    destruct (b_sessionId body) as [[|c s]|] eqn:Hs; try discriminate.
    revert Hr. rewrite (POST_dispatch env request body (c :: s)) by done.
    pose proof (dispatch_thrown env request body (c :: s)
                  (db w !! (c :: s)) w) as Hthrown.
    destruct (dispatch env request body (c :: s) (db w !! (c :: s)) w)
      as [[uv|e] w']; simpl in *.
    + intros [= <-]. done.
    + intros _. by eapply Hthrown.
  - intros [Hb | (body & sid & Hb & Hs & Hne & Hcase)].
    { post_unfold. by rewrite Hb. }
    rewrite (POST_dispatch env request body sid) by done.
    unfold dispatch.
    destruct Hcase as [([v Hv] & Hd & Ht) | (Hv & Ht & Hd)]; rewrite Hv.
    + destruct Ht as [-> | [-> | ->]]; eval_lits; rewrite Hd;
        unfold onLocationPermission, onLocationUpdate, onInteraction,
          member, newDate, bind, throw; done.
    + rewrite Ht. eval_lits. unfold onInitialVisit, bind.
      destruct (getGeographicData_returns env (getClientIP request) w)
        as (g & w1 & -> & _).
      unfold member. destruct (b_data body) as [d|]; [|done].
      simpl in Hd. unfold ret, createVisit, bind, newDate. simpl.
      by rewrite Hd.
Qed.


Ltac run_handler :=
  unfold newDate, save, bind, ret, set_db; simpl.

(** X7. an [interaction] event for an existing session adds one to
    [interactionCount], appends the search query if it is a non-empty
    string, adds one to [savedLocationsCount] if a save is reported, sets
    [lastActivity] to the time of handling, and leaves the location
    history and the permission outcome alone. *)
Theorem interaction_effect env request body sid d v w :
  req_body request = Some body ->
  b_sessionId body = Some sid -> sid <> [] ->
  b_type body = Some (js "interaction") ->
  b_data body = Some d ->
  db w !! sid = Some v -> sessionId v = sid ->
  exists v',
    db (snd (POST env request w)) !! sid = Some v' /\
    fst (POST env request w) = Ok (okResponse (Some v')) /\
    interactionCount v' = interactionCount v + 1 /\
    searchQueries v' =
      searchQueries v ++
      (if truthy (d_searchQuery d) then [default [] (d_searchQuery d)]
       else []) /\
    savedLocationsCount v' =
      savedLocationsCount v +
      (match d_savedLocation d with Some true => 1 | _ => 0 end) /\
    lastActivity v' = clock env (reads w) /\
    locations v' = locations v /\
    currentLocation v' = currentLocation v /\
    locationPermissionGranted v' = locationPermissionGranted v.
Proof.
  intros Hb Hs Hne Ht Hd Hv Hk.
  destruct sid as [|c r]; [done|].
  destruct v as [i s ip ua fv la td ls cl pg pt di ni pv ic sq sc ci co re ca up].
  simpl in Hk. subst s.
  post_enter Hb Hs. rewrite Hv, Hd, Ht. eval_lits. run_handler.
  destruct (truthy (d_searchQuery d)), (d_savedLocation d) as [[|]|]; simpl;
    rewrite lookup_insert_eq; eexists; (split; [reflexivity|]); simpl;
    rewrite ?app_nil_r, ?Z.add_0_r; repeat split.
Qed.

(** X8. a [location_permission] event for an existing session stores the
    outcome it reports and the time of handling; it appends a sample, and
    makes it the current one, only when the outcome is granted and a
    location comes with it; it does not recompute [totalDuration]. *)
Theorem permission_effect env request body sid d v w :
  req_body request = Some body ->
  b_sessionId body = Some sid -> sid <> [] ->
  b_type body = Some (js "location_permission") ->
  b_data body = Some d ->
  db w !! sid = Some v -> sessionId v = sid ->
  exists v',
    db (snd (POST env request w)) !! sid = Some v' /\
    fst (POST env request w) = Ok (okResponse (Some v')) /\
    locationPermissionGranted v' = d_granted d /\
    lastActivity v' = clock env (S (reads w)) /\
    locations v' =
      locations v ++
      (match d_granted d, d_location d with
       | Some true, Some loc => [stamp loc (clock env (S (S (reads w))))]
       | _, _ => []
       end) /\
    currentLocation v' =
      (match d_granted d, d_location d with
       | Some true, Some loc => Some (stamp loc (clock env (S (S (reads w)))))
       | _, _ => currentLocation v
       end) /\
    totalDuration v' = totalDuration v /\
    interactionCount v' = interactionCount v /\
    searchQueries v' = searchQueries v.
Proof.
  intros Hb Hs Hne Ht Hd Hv Hk.
  destruct sid as [|c r]; [done|].
  destruct v as [i s ip ua fv la td ls cl pg pt di ni pv ic sq sc ci co re ca up].
  simpl in Hk. subst s.
  post_enter Hb Hs. rewrite Hv, Hd, Ht. eval_lits. run_handler.
  destruct (d_granted d) as [[|]|], (d_location d); simpl;
    rewrite lookup_insert_eq; eexists; (split; [reflexivity|]); simpl;
    rewrite ?app_nil_r; repeat split.
Qed.

(** X9. a [location_update] event with a sample, for an existing session,
    appends the sample stamped with the time of handling to [locations],
    makes it [currentLocation], sets [lastActivity], and leaves the
    counters, the queries and the permission outcome alone. *)
Theorem location_update_effect env request body sid d loc v w :
  req_body request = Some body ->
  b_sessionId body = Some sid -> sid <> [] ->
  b_type body = Some (js "location_update") ->
  b_data body = Some d -> d_location d = Some loc ->
  db w !! sid = Some v -> sessionId v = sid ->
  exists v',
    db (snd (POST env request w)) !! sid = Some v' /\
    fst (POST env request w) = Ok (okResponse (Some v')) /\
    locations v' = locations v ++ [stamp loc (clock env (reads w))] /\
    currentLocation v' = Some (stamp loc (clock env (reads w))) /\
    lastActivity v' = clock env (S (reads w)) /\
    interactionCount v' = interactionCount v /\
    savedLocationsCount v' = savedLocationsCount v /\
    searchQueries v' = searchQueries v /\
    locationPermissionGranted v' = locationPermissionGranted v.
Proof.
  intros Hb Hs Hne Ht Hd Hl Hv Hk.
  destruct sid as [|c r]; [done|].
  destruct v as [i s ip ua fv la td ls cl pg pt di ni pv ic sq sc ci co re ca up].
  simpl in Hk. subst s.
  post_enter Hb Hs. rewrite Hv, Hd, Ht. eval_lits. run_handler.
  rewrite Hl. simpl. rewrite lookup_insert_eq.
  eexists. split; [reflexivity|]. simpl. repeat split.
Qed.

(** ** The client address and its enrichment *)

(** X10. the address taken from a non-empty [x-forwarded-for] header is its
    first entry without surrounding white space: it holds no comma and
    neither starts nor ends with white space, whatever the other headers
    say; and the client address is empty only when that first entry is
    blank. *)
Theorem getClientIP_shape request :
  (forall f, x_forwarded_for (headers request) = Some f -> f <> [] ->
     let ip := getClientIP request in
     (44%N ∉ ip) /\
     (forall c r, ip = c :: r -> isWhiteSpace c = false) /\
     (forall c, last ip = Some c -> isWhiteSpace c = false)) /\
  (getClientIP request = [] ->
   exists f, x_forwarded_for (headers request) = Some f /\ f <> [] /\
             trim (beforeComma f) = []).
Proof.
  unfold getClientIP. split.
  - intros f Hf Hne. rewrite Hf. destruct f as [|c f]; [done|].
    cbv zeta. split; [|split].
    + intros Hin%elem_of_trim. by apply beforeComma_no_comma in Hin.
    + apply trim_head.
    + apply trim_last.
  - destruct (x_forwarded_for (headers request)) as [[|c f]|] eqn:Hf.
    + destruct (x_real_ip (headers request)) as [[|]|],
        (cf_connecting_ip (headers request)) as [[|]|]; discriminate.
    + intros E. exists (c :: f). done.
    + destruct (x_real_ip (headers request)) as [[|]|],
        (cf_connecting_ip (headers request)) as [[|]|]; discriminate.
Qed.

(** X11. each field of the geo-enrichment is a non-empty string; at most one
    lookup is made, for the address itself; a reply that can be read is
    used whatever its status, field by field, with ["Unknown"] for a field
    that is absent or empty. *)
Theorem getGeographicData_fields env ip w :
  exists g w',
    getGeographicData env ip w = (Ok g, w') /\
    g_city g <> [] /\ g_country g <> [] /\ g_region g <> [] /\
    db w' = db w /\
    (lookups w' = lookups w \/ lookups w' = lookups w ++ [ip]) /\
    (forall ok data,
       lookups w' <> lookups w ->
       ipapi env ip = Replied ok (Some data) ->
       g = {| g_city := orUnknown (ip_city data);
              g_country := orUnknown (ip_country_name data);
              g_region := orUnknown (ip_region data) |}).
Proof.
  assert (forall o, orUnknown o <> []) as Hn
    by (intros [[|]|]; discriminate).
  unfold getGeographicData.
  destruct (_ || _).
  { exists unknownGeo, w. repeat split; try discriminate; auto. done. }
  unfold try_catch, bind, fetchIpapi, ret.
  destruct (ipapi env ip) as [|ok [data|]]; simpl;
    eexists _, _; (split; [reflexivity|]); simpl;
    repeat split; try discriminate; auto; try (by intros ? ? _ [=]).
  by intros ? ? _ [= _ <-].
Qed.


(** ** Reading the collection *)

Lemma length_documents (m : gmap JsString IUserVisit) :
  length (documents m) = size m.
Proof. unfold documents. by rewrite length_fmap, length_map_to_list. Qed.

Lemma elem_of_documents (m : gmap JsString IUserVisit) v :
  v ∈ documents m <-> exists k, m !! k = Some v.
Proof.
  unfold documents. rewrite list_elem_of_fmap. split.
  - intros ([k x] & -> & Hin). exists k. by apply elem_of_map_to_list.
  - intros (k & Hk). exists (k, v). split; [done|].
    by apply elem_of_map_to_list.
Qed.

#[local] Instance newerFirst_total : Total newerFirst.
Proof. intros a b. unfold newerFirst. lia. Qed.

#[local] Instance newerFirst_trans : Transitive newerFirst.
Proof. intros a b c. unfold newerFirst. lia. Qed.


(** X14. the overview counts every record, counts no more records with a
    granted permission than there are records, reports the rate as the
    number 0 when the collection is empty and otherwise as the text of
    the percentage with one decimal, and lists in [recentVisits] the
    summaries of the ten newest records, or of all when there are fewer,
    newest first. *)
Theorem overview_counts (toFixed1 : float -> JsString)
    (m : gmap JsString IUserVisit) :
  let s := overview toFixed1 m in
  totalVisits s = size m /\
  (visitsWithLocation s <= totalVisits s)%nat /\
  (size m = 0%nat -> locationPermissionRate s = RateZero) /\
  (size m <> 0%nat ->
   locationPermissionRate s =
     RateText (toFixed1 (ofCount (visitsWithLocation s) / ofCount (size m)
                         * 100)%float)) /\
  recentVisits s = summary <$> recentDocuments m /\
  length (recentVisits s) = min 10 (size m) /\
  StronglySorted newerFirst (recentDocuments m) /\
  exists older,
    recentDocuments m ++ older ≡ₚ documents m /\
    forall a b, a ∈ recentDocuments m -> b ∈ older ->
                createdAt b <= createdAt a.
Proof.
  cbv zeta. unfold overview. cbn [totalVisits visitsWithLocation
    locationPermissionRate recentVisits].
  pose proof (StronglySorted_merge_sort newerFirst (documents m)) as Hsorted.
  pose proof (merge_sort_Permutation newerFirst (documents m)) as Hperm.
  rewrite <- (take_drop 10 (merge_sort newerFirst (documents m))) in Hsorted, Hperm.
  repeat split.
  - unfold countWithLocation. rewrite <- length_documents. apply length_filter.
  - intros ->. reflexivity.
  - intros Hn. destruct (size m); [done | reflexivity].
  - rewrite length_fmap. unfold recentDocuments.
    by rewrite length_take, (Permutation_length
         (merge_sort_Permutation newerFirst (documents m))), length_documents.
  - unfold recentDocuments. by eapply StronglySorted_app_1_l.
  - exists (drop 10 (merge_sort newerFirst (documents m))).
    split; [exact Hperm|]. intros a b Ha Hb.
    by apply (StronglySorted_app_1_elem_of _ _ _ a b Hsorted).
Qed.

(** ** The theorems on sample requests *)

Lemma serve_extends_witness :
  exists v',
    db (serve Examples.env Examples.morning Examples.store) !! Examples.sid
      = Some v' /\
    extends Examples.visit v'.
Proof.
  apply (serve_extends Examples.env Examples.morning Examples.store
           Examples.sid Examples.visit indexed_sample_store).
  reflexivity.
Defined.

Lemma coherent_sample_store :
  forall k v, db Examples.store !! k = Some v -> coherent v.
Proof.
  intros k v Hl. change (db Examples.store) with
    ({[ Examples.sid := Examples.visit ]} : gmap JsString IUserVisit) in Hl.
  apply lookup_singleton_Some in Hl as [_ <-]. reflexivity.
Defined.

Lemma serve_coherent_witness :
  exists v,
    db (serve Examples.env Examples.morning Examples.store) !! Examples.sid
      = Some v /\
    length (locations v) = 2%nat /\
    currentLocation v = last (locations v).
Proof.
  destruct (db (serve Examples.env Examples.morning Examples.store)
              !! Examples.sid) as [v|] eqn:Hv; [|by vm_compute in Hv].
  exists v. split; [reflexivity|]. split.
  - revert Hv. vm_compute. by intros [= <-].
  - exact (serve_coherent Examples.env Examples.morning Examples.store
             indexed_sample_store coherent_sample_store Examples.sid v Hv).
Defined.

Lemma POST_other_sessions_untouched_witness :
  db (snd (POST Examples.env
             (Examples.event (Some Examples.newcomer) "initial_visit"
                (Some Examples.initialData)) Examples.store))
    !! Examples.sid = db Examples.store !! Examples.sid.
Proof.
  apply (POST_other_sessions_untouched Examples.env _ Examples.store
           Examples.sid indexed_sample_store).
  intros body [= <-]. vm_compute. discriminate.
Defined.

Lemma POST_failures_write_nothing_witness :
  fst (POST Examples.env
         (Examples.event (Some Examples.sid) "interaction" None)
         Examples.store) = Ok serverError /\
  db (snd (POST Examples.env
             (Examples.event (Some Examples.sid) "interaction" None)
             Examples.store)) = db Examples.store.
Proof.
  destruct (POST_failures_write_nothing Examples.env
              (Examples.event (Some Examples.sid) "interaction" None)
              Examples.store) as [Hdb Hfault].
  assert (fst (POST Examples.env
                 (Examples.event (Some Examples.sid) "interaction" None)
                 Examples.store) = Ok serverError) as E.
  { apply Hfault. right.
    exists (Examples.eventBody (Some Examples.sid) "interaction" None),
      Examples.sid.
    split; [reflexivity|]. split; [reflexivity|].
    split; [vm_compute; discriminate|]. left.
    split; [by exists Examples.visit|]. split; [reflexivity|].
    right. right. reflexivity. }
  split; [exact E|]. apply (Hdb serverError E). discriminate.
Defined.


Lemma interaction_effect_witness :
  exists v',
    db (snd (POST Examples.env
               (Examples.event (Some Examples.sid) "interaction"
                  (Some Examples.searchPune)) Examples.store))
      !! Examples.sid = Some v' /\
    interactionCount v' = 1 /\ searchQueries v' = [js "Pune"] /\
    savedLocationsCount v' = 0.
Proof.
  destruct (interaction_effect Examples.env
              (Examples.event (Some Examples.sid) "interaction"
                 (Some Examples.searchPune))
              (Examples.eventBody (Some Examples.sid) "interaction"
                 (Some Examples.searchPune))
              Examples.sid Examples.searchPune Examples.visit Examples.store
              eq_refl eq_refl ltac:(by vm_compute) eq_refl eq_refl
              ltac:(by vm_compute) eq_refl)
    as (v' & Hv' & _ & Hc & Hq & Hs & _).
  exists v'. split; [exact Hv'|]. split; [exact Hc|].
  split; [exact Hq | exact Hs].
Defined.

Lemma permission_effect_witness :
  exists v',
    db (snd (POST Examples.env
               (Examples.event (Some Examples.sid) "location_permission"
                  (Some Examples.deniedData)) Examples.store))
      !! Examples.sid = Some v' /\
    locationPermissionGranted v' = Some false /\
    locations v' = [] /\ totalDuration v' = 0.
Proof.
  destruct (permission_effect Examples.env
              (Examples.event (Some Examples.sid) "location_permission"
                 (Some Examples.deniedData))
              (Examples.eventBody (Some Examples.sid) "location_permission"
                 (Some Examples.deniedData))
              Examples.sid Examples.deniedData Examples.visit Examples.store
              eq_refl eq_refl ltac:(by vm_compute) eq_refl eq_refl
              ltac:(by vm_compute) eq_refl)
    as (v' & Hv' & _ & Hg & _ & Hl & _ & Ht & _).
  exists v'. split; [exact Hv'|]. split; [exact Hg|].
  split; [exact Hl | exact Ht].
Defined.

Lemma location_update_effect_witness :
  exists v',
    db (snd (POST Examples.env
               (Examples.event (Some Examples.sid) "location_update"
                  (Some Examples.sampleData)) Examples.store))
      !! Examples.sid = Some v' /\
    locations v' = [stamp Examples.sample 1700000005000] /\
    currentLocation v' = Some (stamp Examples.sample 1700000005000).
Proof.
  destruct (location_update_effect Examples.env
              (Examples.event (Some Examples.sid) "location_update"
                 (Some Examples.sampleData))
              (Examples.eventBody (Some Examples.sid) "location_update"
                 (Some Examples.sampleData))
              Examples.sid Examples.sampleData Examples.sample
              Examples.visit Examples.store eq_refl eq_refl
              ltac:(by vm_compute) eq_refl eq_refl eq_refl
              ltac:(by vm_compute) eq_refl)
    as (v' & Hv' & _ & Hl & Hc & _).
  exists v'. split; [exact Hv'|]. split; [exact Hl | exact Hc].
Defined.

Lemma getClientIP_shape_witness :
  getClientIP {| headers := Examples.proxied; req_body := None |}
    = js "203.0.113.7" /\
  44%N ∉ getClientIP {| headers := Examples.proxied; req_body := None |}.
Proof.
  split; [reflexivity|].
  apply (proj1 (getClientIP_shape
                  {| headers := Examples.proxied; req_body := None |})
           (js " 203.0.113.7 , 10.0.0.2") eq_refl).
  vm_compute. discriminate.
Defined.

Lemma getGeographicData_fields_witness :
  exists g w',
    getGeographicData Examples.env (js "203.0.113.7") Examples.emptyStore
      = (Ok g, w') /\
    g = unknownGeo /\ lookups w' = [js "203.0.113.7"].
Proof.
  destruct (getGeographicData_fields Examples.env (js "203.0.113.7")
              Examples.emptyStore) as (g & w' & Hr & _ & _ & _ & _ & _ & Hg).
  exists g, w'. split; [exact Hr|].
  assert (lookups w' = [js "203.0.113.7"]) as Hl
    by (revert Hr; vm_compute; by intros [= _ <-]).
  split; [|exact Hl].
  rewrite (Hg true {| ip_city := None; ip_country_name := None;
                      ip_region := None |}); [reflexivity | | reflexivity].
  rewrite Hl. discriminate.
Defined.



Lemma overview_counts_witness :
  totalVisits (overview (fun _ => js "0.0") (db Examples.store)) = 1%nat /\
  length (recentVisits (overview (fun _ => js "0.0") (db Examples.store)))
    = 1%nat.
Proof.
  destruct (overview_counts (fun _ => js "0.0") (db Examples.store))
    as (Ht & _ & _ & _ & _ & Hl & _).
  split; [exact Ht | exact Hl].
Defined.

End VisitExtras.

(* ===================================================================== *)
(** * Saved locations and the dashboard's durations *)
(* ===================================================================== *)

Module LocationsFacts.
Import Locations.

(** X15. saving a location is refused, and nothing is stored, unless the
    body is readable and has a non-empty name, a non-empty address and
    both coordinates: 400 when name, address or the coordinates object is
    missing, 500 when the body is unreadable or a coordinate is missing. *)
Theorem POST_refusals freshId request_body store :
  let complete :=
    exists body x y,
      request_body = Some body /\ truthy (b_name body) = true /\
      truthy (b_address body) = true /\
      b_coordinates body = Some {| in_lng := Some x; in_lat := Some y |} in
  let r := fst (POST freshId request_body store) in
  (status r = 201 <-> complete) /\
  (status r <> 201 ->
   success r = false /\ snd (POST freshId request_body store) = store) /\
  (status r = 400 <->
   exists body, request_body = Some body /\
     (truthy (b_name body) = false \/ truthy (b_address body) = false \/
      b_coordinates body = None)).
Proof.
  cbv zeta. unfold POST.
  destruct request_body as [body|]; simpl.
  2: { split; [|split].
       - split; [discriminate | by intros (? & ? & ? & ? & _)].
       - done.
       - split; [discriminate | by intros (? & ? & _)]. }
  destruct (truthy (b_name body)) eqn:Hn; simpl.
  2: { split; [|split].
       - split; [discriminate|]. intros (? & ? & ? & [= <-] & ? & _). congruence.
       - done.
       - split; [eauto|done]. }
  destruct (truthy (b_address body)) eqn:Ha; simpl.
  2: { split; [|split].
       - split; [discriminate|]. intros (? & ? & ? & [= <-] & ? & ? & _). congruence.
       - done.
       - split; [eauto 6|done]. }
  pose proof (fun (b : LocationBody) (H : Some body = Some b) =>
                eq_sym (f_equal (default body) H)) as Hbody.
  destruct (b_coordinates body) as [[[x|] [y|]]|] eqn:Hc; simpl;
    (split; [|split]);
    try (by intros Hx; try congruence);
    try (split; [discriminate|];
         intros (b & Hb%Hbody & Hcase); simpl in Hb; subst b;
         destruct Hcase as [?|[?|?]]; congruence);
    try (split; [discriminate|];
         intros (b & ? & ? & Hb%Hbody & _ & _ & Hcase); simpl in Hb; subst b;
         congruence).
  - split; [|done]. intros _. exists body, x, y. repeat split; try assumption.
  - split; [|done]. intros _. exists body. auto.
Qed.

(** X16. a complete location is stored with the name, address and
    coordinates that were sent and answered 201 with the stored document;
    listing the locations afterwards returns the earlier ones followed by
    it. *)
Theorem POST_then_GET freshId body x y store :
  truthy (b_name body) = true -> truthy (b_address body) = true ->
  b_coordinates body = Some {| in_lng := Some x; in_lat := Some y |} ->
  exists loc,
    POST freshId (Some body) store =
      ({| status := 201; success := true; error := None;
          data := Some (Created loc) |}, store ++ [loc]) /\
    b_name body = Some (name loc) /\ b_address body = Some (address loc) /\
    lng loc = x /\ lat loc = y /\ _id loc = freshId /\
    data (GET (snd (POST freshId (Some body) store)))
      = Some (Listed (store ++ [loc])).
Proof.
  intros Hn Ha Hc. unfold POST. rewrite Hn, Ha, Hc. simpl.
  eexists. split; [reflexivity|]. simpl.
  destruct (b_name body) as [[|]|], (b_address body) as [[|]|];
    try discriminate. repeat split.
Qed.

Lemma POST_then_GET_witness :
  exists loc,
    snd (POST 7 (Some Examples.home) []) = [loc] /\
    name loc = js "Home" /\ lat loc = 18.52%float /\
    data (GET (snd (POST 7 (Some Examples.home) []))) = Some (Listed [loc]).
Proof.
  destruct (POST_then_GET 7 Examples.home 73.85%float 18.52%float []
              eq_refl eq_refl eq_refl)
    as (loc & Hp & Hn & _ & _ & Hlat & _ & Hg).
  exists loc. split; [by rewrite Hp|]. split; [by injection Hn|].
  split; [exact Hlat | exact Hg].
Defined.

End LocationsFacts.

Module AdminFacts.
Import Admin.



End AdminFacts.

(* ===================================================================== *)
(** * The tracker of the page, against the endpoint and the browser *)
(* ===================================================================== *)

Module TrackingFacts.
Import Model Route VisitFacts VisitExtras Tracking.
Set Warnings "-clear-no-such-hyp".

Lemma generateSessionId_cons now random36 :
  exists c r, generateSessionId now random36 = c :: r.
Proof.
  unfold generateSessionId. destruct (decimal now) as [|c r]; simpl; eauto.
Qed.

(** The answer to a tracking request with a non-empty session id. *)
Lemma tracked_answer env seen sid type data w :
  sid <> [] ->
  exists uv,
    fst (POST env (trackingRequest seen sid type data) w) = Ok serverError \/
    fst (POST env (trackingRequest seen sid type data) w) = Ok (okResponse uv).
Proof.
  intros Hne. destruct sid as [|c r]; [done|].
  unfold POST. rewrite fst_try_catch_ret. unfold member, trackingRequest.
  cbn [req_body b_sessionId]. rewrite bind_ret_l.
  cbn beta iota delta [truthy negb b_sessionId default from_option id].
  rewrite bind_findOne, fst_bind_ret.
  match goal with |- context [fst ?x] => destruct (fst x) as [uv|e] end.
  - exists uv. by right.
  - exists None. by left.
Qed.

(** X18. the session id a tracker generates is never empty, so no event of
    a tracker is answered 400. *)
Theorem generated_id_accepted env seen now random36 type data w :
  let sid := generateSessionId now random36 in
  truthy (Some sid) = true /\
  exists r, fst (POST env (trackingRequest seen sid type data) w) = Ok r /\
            status r <> 400.
Proof.
  cbv zeta. destruct (generateSessionId_cons now random36) as (c & r & E).
  rewrite E. split; [reflexivity|].
  destruct (tracked_answer env seen (c :: r) type data w ltac:(done))
    as (uv & [H | H]); rewrite H; eexists; (split; [reflexivity|]); done.
Qed.

Lemma POST_answer env request w :
  exists r, fst (POST env request w) = Ok r /\
    (status r = 200 <-> success r = true).
Proof.
  unfold POST. rewrite fst_try_catch_ret.
  match goal with |- context [fst ?x] => destruct (fst x) as [r|e] eqn:E end.
  - exists r. split; [done|]. revert E. unfold member, bind.
    destruct (req_body request) as [body|]; [|discriminate]. simpl.
    destruct (truthy (b_sessionId body)); simpl.
    + unfold findOne.
      match goal with |- context [let (_, _) := ?x in _] =>
        destruct x as [[uv|e] w'] end; [|discriminate].
      by intros [= <-].
    + by intros [= <-].
  - by exists serverError.
Qed.

(** X19. [sendTrackingData] returns [true] exactly when the answer came back
    and was a success; when the request is lost the server is as before,
    and when only the answer is lost the event has been handled although
    [false] is returned. *)
Theorem sendTrackingData_result env link sid type data w :
  let request seen := trackingRequest seen sid type data in
  let result := sendTrackingData env link sid type data w in
  (fst result = true <->
   exists seen r, link = RoundTrip seen /\
     fst (POST env (request seen) w) = Ok r /\ status r = 200) /\
  (link = RequestLost -> snd result = w) /\
  (forall seen, link = ResponseLost seen \/ link = RoundTrip seen ->
     snd result = snd (POST env (request seen) w)).
Proof.
  cbv zeta. unfold sendTrackingData. destruct link as [|seen|seen]; simpl.
  - split; [|split].
    + split; [discriminate | by intros (? & ? & ? & _)].
    + done.
    + by intros ? [?|?].
  - split; [|split].
    + split; [discriminate | by intros (? & ? & ? & _)].
    + done.
    + by intros ? [[= <-]|[=]].
  - destruct (POST_answer env (trackingRequest seen sid type data) w)
      as (r & Hr & Hst).
    destruct (POST env (trackingRequest seen sid type data) w)
      as [[a|e] w'] eqn:EP; simpl in *; [|discriminate]. injection Hr as ->.
    destruct Hst as [H1 H2].
    split; [|split].
    + split.
      * intros Hs. exists seen, r. rewrite EP. auto.
      * intros (? & r' & [= <-] & Hr' & H200). rewrite EP in Hr'.
        injection Hr' as <-. auto.
    + done.
    + intros ? [[=]|[= <-]]. by rewrite EP.
Qed.

Lemma delivered_world env link seen sid type data w :
  link = ResponseLost seen \/ link = RoundTrip seen ->
  snd (sendTrackingData env link sid type data w)
  = snd (POST env (trackingRequest seen sid type data) w).
Proof.
  unfold sendTrackingData. intros [-> | ->]; [reflexivity|].
  by destruct (POST env (trackingRequest seen sid type data) w) as [[a|e] w'].
Qed.

Lemma tracked_interaction env seen sid d v w :
  sid <> [] -> db w !! sid = Some v -> Model.sessionId v = sid ->
  exists v',
    db (snd (POST env (trackingRequest seen sid (js "interaction") d) w))
      !! sid = Some v' /\
    interactionCount v' = interactionCount v + 1 /\
    searchQueries v' =
      searchQueries v ++
      (if truthy (d_searchQuery d) then [default [] (d_searchQuery d)]
       else []) /\
    savedLocationsCount v' =
      savedLocationsCount v +
      (match d_savedLocation d with Some true => 1 | _ => 0 end) /\
    locations v' = locations v.
Proof.
  intros Hne Hv Hk. destruct sid as [|c r]; [done|].
  destruct v as [i s ip ua fv la td ls cl pg pt di ni pv ic sq sc ci co re ca up].
  simpl in Hk. subst s.
  post_unfold. cbn [trackingRequest req_body b_sessionId b_type b_data].
  cbn beta iota delta [truthy negb default from_option id].
  rewrite Hv. eval_lits. run_handler.
  destruct (truthy (d_searchQuery d)), (d_savedLocation d) as [[|]|]; simpl;
    rewrite lookup_insert_eq; eexists; (split; [reflexivity|]); simpl;
    rewrite ?app_nil_r, ?Z.add_0_r; repeat split.
Qed.

(** X20. when the request reaches the endpoint and the tracker's session
    exists, a tracked search adds one interaction and appends the query
    (unless it is empty), a tracked save adds one interaction and one
    saved location, and an activity event adds one interaction and
    nothing else; the location history is left alone by all three. *)
Theorem tracked_interactions_recorded env link seen t query v w :
  link = ResponseLost seen \/ link = RoundTrip seen ->
  sessionId t <> [] ->
  db w !! sessionId t = Some v -> Model.sessionId v = sessionId t ->
  (exists v',
     db (trackSearchQuery env link t query w) !! sessionId t = Some v' /\
     interactionCount v' = interactionCount v + 1 /\
     searchQueries v' =
       searchQueries v ++ (match query with [] => [] | _ => [query] end) /\
     savedLocationsCount v' = savedLocationsCount v /\
     locations v' = locations v) /\
  (exists v',
     db (trackLocationSave env link t w) !! sessionId t = Some v' /\
     interactionCount v' = interactionCount v + 1 /\
     searchQueries v' = searchQueries v /\
     savedLocationsCount v' = savedLocationsCount v + 1 /\
     locations v' = locations v) /\
  (exists v',
     db (trackActivity env link t w) !! sessionId t = Some v' /\
     interactionCount v' = interactionCount v + 1 /\
     searchQueries v' = searchQueries v /\
     savedLocationsCount v' = savedLocationsCount v /\
     locations v' = locations v).
Proof.
  intros Hl Hne Hv Hk.
  unfold trackSearchQuery, trackLocationSave, trackActivity.
  rewrite !(delivered_world env link seen) by done.
  split; [|split].
  - destruct (tracked_interaction env seen _ (searchData query) v w Hne Hv Hk)
      as (v' & Hv' & Hc & Hq & Hs & Hloc).
    exists v'. simpl in Hq, Hs. rewrite Z.add_0_r in Hs.
    repeat split; try done. by destruct query.
  - destruct (tracked_interaction env seen _ saveData v w Hne Hv Hk)
      as (v' & Hv' & Hc & Hq & Hs & Hloc).
    exists v'. simpl in Hq, Hs. rewrite app_nil_r in Hq. done.
  - destruct (tracked_interaction env seen _ noData v w Hne Hv Hk)
      as (v' & Hv' & Hc & Hq & Hs & Hloc).
    exists v'. simpl in Hq, Hs. rewrite app_nil_r in Hq.
    rewrite Z.add_0_r in Hs. done.
Qed.


(** ** The tracker and the browser *)

(** Setting up the activity listeners touches nothing but the list of
    listeners, to which it adds six. *)
Lemma setupActivityTracking_parts b :
  nextWatch (setupActivityTracking b) = nextWatch b /\
  nextTimer (setupActivityTracking b) = nextTimer b /\
  watches (setupActivityTracking b) = watches b /\
  timers (setupActivityTracking b) = timers b /\
  listeners (setupActivityTracking b) =
    listeners b ++
    [ {| target := document; event := js "click" |};
      {| target := document; event := js "scroll" |};
      {| target := document; event := js "keydown" |};
      {| target := window; event := js "focus" |};
      {| target := window; event := js "blur" |};
      {| target := document; event := js "visibilitychange" |} ].
Proof.
  repeat split. unfold setupActivityTracking.
  cbn [addEventListener listeners]. by rewrite <- !app_assoc.
Qed.

(** X21. [cleanup] clears the position watch the tracker holds and the
    interval it holds (a non-zero id), forgets both, acquires nothing,
    leaves every event listener registered, and changes nothing when run
    a second time. *)
Theorem cleanup_releases t b :
  let r := cleanup t b in
  watchId (fst r) = None /\
  (forall id, watchId t = Some id -> (id ∉ watches (snd r))) /\
  (forall id, locationUpdateInterval t = Some id -> id <> 0%N ->
     (id ∉ timers (snd r)) /\ locationUpdateInterval (fst r) = None) /\
  (watches (snd r) ⊆ watches b) /\ (timers (snd r) ⊆ timers b) /\
  listeners (snd r) = listeners b /\
  cleanup (fst r) (snd r) = r.
Proof.
  cbv zeta. unfold cleanup, clearWatch, clearTimer.
  destruct t as [sid wid tid iid]. cbn [watchId activityTimer
    locationUpdateInterval Tracking.sessionId].
  split; [by destruct wid, (truthyId tid), (truthyId iid)|].
  split.
  { intros id ->. destruct (truthyId tid), (truthyId iid); simpl; set_solver. }
  split.
  { intros id -> Hid. destruct id as [|p]; [done|]. cbn [truthyId default
      from_option id]. destruct wid, (truthyId tid); simpl; set_solver. }
  split; [destruct wid, (truthyId tid), (truthyId iid); simpl; set_solver|].
  split; [destruct wid, (truthyId tid), (truthyId iid); simpl; set_solver|].
  split; [by destruct wid, (truthyId tid), (truthyId iid)|].
  destruct wid as [w|], tid as [[|a]|], iid as [[|i]|]; simpl;
    repeat f_equal; set_solver.
Qed.

(** X22. the watch and the interval that tracking acquires are given back
    by [cleanup], while the six activity listeners set up with the tracker
    stay registered. *)
Theorem tracking_released_listeners_stay t b :
  nextWatch b ∉ watches b -> nextTimer b ∉ timers b -> nextTimer b <> 0%N ->
  activityTimer t = None ->
  let started := startLocationTracking t (setupActivityTracking b) in
  let cleaned := cleanup (fst started) (snd started) in
  nextWatch b ∈ watches (snd started) /\
  nextTimer b ∈ timers (snd started) /\
  watches (snd cleaned) = watches b /\
  timers (snd cleaned) = timers b /\
  watchId (fst cleaned) = None /\
  locationUpdateInterval (fst cleaned) = None /\
  listeners (snd cleaned) =
    listeners b ++
    [ {| target := document; event := js "click" |};
      {| target := document; event := js "scroll" |};
      {| target := document; event := js "keydown" |};
      {| target := window; event := js "focus" |};
      {| target := window; event := js "blur" |};
      {| target := document; event := js "visibilitychange" |} ].
Proof.
  intros Hw Ht H0 Ha. cbv zeta.
  destruct (setupActivityTracking_parts b) as (Enw & Ent & Ew & Et & El).
  revert Enw Ent Ew Et El. generalize (setupActivityTracking b) as b'.
  intros b' Enw Ent Ew Et El.
  unfold startLocationTracking, watchPosition, setInterval, cleanup,
    clearWatch, clearTimer.
  cbn [fst snd watchId activityTimer locationUpdateInterval nextWatch
       nextTimer watches timers listeners Tracking.sessionId].
  rewrite Ha, Enw, Ent, Ew, Et, El.
  destruct (nextTimer b) as [|p] eqn:E; [done|].
  cbn [truthyId default from_option id fst snd watchId activityTimer
       locationUpdateInterval nextWatch nextTimer watches timers listeners
       Tracking.sessionId].
  split; [set_solver|]. split; [set_solver|].
  split; [set_solver|]. split; [set_solver|]. done.
Qed.

Lemma tracked_permission env seen sid granted location v w :
  sid <> [] -> db w !! sid = Some v -> Model.sessionId v = sid ->
  exists v',
    db (snd (POST env (trackingRequest seen sid (js "location_permission")
                         (permissionData granted location)) w))
      !! sid = Some v' /\
    locationPermissionGranted v' = Some granted /\
    locationPermissionTime v' = Some (clock env (reads w)) /\
    locations v' =
      locations v ++
      (match granted, location with
       | true, Some loc => [stamp loc (clock env (S (S (reads w))))]
       | _, _ => []
       end).
Proof.
  intros Hne Hv Hk. destruct sid as [|c r]; [done|].
  destruct v as [i s ip ua fv la td ls cl pg pt di ni pv ic sq sc ci co re ca up].
  simpl in Hk. subst s.
  post_unfold. cbn [trackingRequest req_body b_sessionId b_type b_data].
  cbn beta iota delta [truthy negb default from_option id].
  rewrite Hv. eval_lits. run_handler.
  destruct granted, location; simpl;
    rewrite lookup_insert_eq; eexists; (split; [reflexivity|]); simpl;
    rewrite ?app_nil_r; repeat split.
Qed.

(** X23. when the tracker's session exists and the request reaches the
    endpoint, a refused position records the outcome [false] and its time,
    appends no sample and starts no tracking; a granted position records
    [true], appends that position as one sample, and starts the watch and
    the interval; without geolocation nothing is sent or started. *)
Theorem permission_flow env link seen position t v sys :
  link = ResponseLost seen \/ link = RoundTrip seen ->
  sessionId t <> [] ->
  db (server sys) !! sessionId t = Some v ->
  Model.sessionId v = sessionId t ->
  let r := requestLocationPermission env link position t sys in
  let granted := fst (fst r) in
  let t' := snd (fst r) in
  let sys' := snd r in
  match position with
  | Unsupported => granted = false /\ t' = t /\ sys' = sys
  | PositionError =>
    granted = false /\ t' = t /\ browser sys' = browser sys /\
    exists v', db (server sys') !! sessionId t = Some v' /\
      locationPermissionGranted v' = Some false /\
      locationPermissionTime v' = Some (clock env (reads (server sys))) /\
      locations v' = locations v
  | Position loc =>
    granted = true /\
    watchId t' = Some (nextWatch (browser sys)) /\
    locationUpdateInterval t' = Some (nextTimer (browser sys)) /\
    nextWatch (browser sys) ∈ watches (browser sys') /\
    nextTimer (browser sys) ∈ timers (browser sys') /\
    exists v', db (server sys') !! sessionId t = Some v' /\
      locationPermissionGranted v' = Some true /\
      locations v' =
        locations v ++
        [stamp loc (clock env (S (S (reads (server sys)))))]
  end.
Proof.
  intros Hl Hne Hv Hk. cbv zeta. unfold requestLocationPermission.
  destruct position as [|loc|]; simpl.
  - done.
  - rewrite (delivered_world env link seen) by done.
    destruct (tracked_permission env seen _ true (Some loc) v _ Hne Hv Hk)
      as (v' & Hv' & Hg & _ & Hloc).
    split; [done|]. split; [done|]. split; [done|].
    split; [set_solver|]. split; [set_solver|]. by exists v'.
  - rewrite (delivered_world env link seen) by done.
    destruct (tracked_permission env seen _ false None v _ Hne Hv Hk)
      as (v' & Hv' & Hg & Ht & Hloc).
    repeat split. exists v'. rewrite app_nil_r in Hloc. done.
Qed.



(** ** The theorems on the sample session *)

Lemma tracked_interactions_recorded_witness :
  exists v',
    db (trackSearchQuery Examples.env (RoundTrip Examples.noHeaders)
          Examples.tracker (js "Pune") Examples.store) !! Examples.sid
      = Some v' /\
    interactionCount v' = 1 /\ searchQueries v' = [js "Pune"].
Proof.
  destruct (tracked_interactions_recorded Examples.env
              (RoundTrip Examples.noHeaders) Examples.noHeaders
              Examples.tracker (js "Pune") Examples.visit Examples.store
              (or_intror eq_refl) ltac:(by vm_compute) ltac:(by vm_compute)
              eq_refl)
    as [(v' & Hv' & Hc & Hq & _) _].
  exists v'. split; [exact Hv'|]. split; [exact Hc | exact Hq].
Defined.

Lemma tracking_released_listeners_stay_witness :
  let started :=
    startLocationTracking Examples.tracker
      (setupActivityTracking Examples.freshBrowser) in
  let cleaned := cleanup (fst started) (snd started) in
  1%N ∈ watches (snd started) /\ watches (snd cleaned) = ∅ /\
  timers (snd cleaned) = ∅ /\ length (listeners (snd cleaned)) = 6%nat.
Proof.
  destruct (tracking_released_listeners_stay Examples.tracker
              Examples.freshBrowser (not_elem_of_empty _)
              (not_elem_of_empty _) ltac:(by vm_compute) eq_refl)
    as (Hw & _ & Hcw & Hct & _ & _ & Hl).
  split; [exact Hw|]. split; [exact Hcw|]. split; [exact Hct|].
  by rewrite Hl.
Defined.

Lemma permission_flow_witness :
  let r := requestLocationPermission Examples.env
             (RoundTrip Examples.noHeaders) (Position Examples.sample)
             Examples.tracker Examples.system in
  fst (fst r) = true /\ watchId (snd (fst r)) = Some 1%N /\
  exists v', db (server (snd r)) !! Examples.sid = Some v' /\
    locationPermissionGranted v' = Some true /\
    length (locations v') = 1%nat.
Proof.
  destruct (permission_flow Examples.env (RoundTrip Examples.noHeaders)
              Examples.noHeaders (Position Examples.sample) Examples.tracker
              Examples.visit Examples.system (or_intror eq_refl)
              ltac:(by vm_compute) ltac:(by vm_compute) eq_refl)
    as (Hg & Hw & _ & _ & _ & v' & Hv' & Hp & Hl).
  split; [exact Hg|]. split; [exact Hw|].
  exists v'. split; [exact Hv'|]. split; [exact Hp|]. by rewrite Hl.
Defined.


End TrackingFacts.

(* ===================================================================== *)
(** * The page: routes shown, requests in flight, searches *)
(* ===================================================================== *)

Module PageExtras.
Import Page PageFacts JsFacts.

Section RouteExtras.
Context `{JsMath}.

Lemma routeFromService_None o :
  routeFromService o = None <->
  routingFailed o = true \/
  exists data route rest,
    o = Replied true (Some data) /\ routes data = Some (route :: rest) /\
    geometry_coordinates route = None.
Proof.
  destruct o as [|[|] [[[[|route rs]|]]|]]; simpl;
    try (split; [by left | done]).
  destruct (geometry_coordinates route) as [cs|] eqn:Hg.
  - split; [done|]. intros [? | (d & r & rest & [= <-] & [= <- _] & Hn)];
      [done|]. simpl in Hn. congruence.
  - split; [|done]. intros _. right. by eexists _, _, _.
Qed.

(** X25. when the routing service answers with at least one candidate that
    has a geometry, the route shown is the first candidate's: its points
    in the same order and number, each reordered from longitude-first to
    latitude-first, with its distance and duration, and no error notice,
    for road and for walking alike. *)
Theorem getRoute_uses_first_candidate osrm start end_ routeType st
    data route rest cs :
  osrm (profileOf routeType) start end_ = Replied true (Some data) ->
  routes data = Some (route :: rest) ->
  geometry_coordinates route = Some cs ->
  let st' := getRoute osrm (Some start) (Some end_) routeType st in
  routeCoordinates st' = Some ((fun c => (snd c, fst c)) <$> cs) /\
  (forall i lng lat, cs !! i = Some (lng, lat) ->
     (default [] (routeCoordinates st')) !! i = Some (lat, lng)) /\
  length (default [] (routeCoordinates st')) = length cs /\
  routeInfo st' = Some {| distance := o_distance route;
                          duration := o_duration route |} /\
  routeError st' = None /\ isCalculatingRoute st' = false.
Proof.
  intros Ho Hr Hg.
  assert (routeFromService (osrm (profileOf routeType) start end_)
          = Some {| r_coordinates := (fun c => (snd c, fst c)) <$> cs;
                    r_distance := o_distance route;
                    r_duration := o_duration route |}) as Hs.
  { rewrite Ho. simpl. by rewrite Hr, Hg. }
  cbv zeta.
  assert (getRoute osrm (Some start) (Some end_) routeType st =
          {| routeCoordinates := Some ((fun c => (snd c, fst c)) <$> cs);
             routeInfo := Some {| distance := o_distance route;
                                  duration := o_duration route |};
             isCalculatingRoute := false; routeError := None |}) as ->.
  { destruct routeType; simpl in Hs |- *.
    - by rewrite Hs.
    - unfold getWalkingRoute. by rewrite Hs. }
  simpl. repeat split.
  - intros i lng lat Hi. by rewrite list_lookup_fmap, Hi.
  - apply length_fmap.
Qed.

(** X26. without both endpoints the route is cleared whatever the service
    would answer; with both, a route and its figures are always set and
    the calculation flag is off, and the error notice is set exactly when
    the road request failed or its first candidate had no geometry: a
    walking fallback is silent. *)
Theorem getRoute_notice osrm startPoint endPoint routeType st :
  let st' := getRoute osrm startPoint endPoint routeType st in
  isCalculatingRoute st' = false /\
  (startPoint = None \/ endPoint = None ->
   routeCoordinates st' = None /\ routeInfo st' = None /\
   routeError st' = None) /\
  (forall start end_, startPoint = Some start -> endPoint = Some end_ ->
     is_Some (routeCoordinates st') /\ is_Some (routeInfo st') /\
     (routeError st' = Some networkErrorMessage <->
      routeType = road /\
      (routingFailed (osrm driving start end_) = true \/
       exists data route rest,
         osrm driving start end_ = Replied true (Some data) /\
         routes data = Some (route :: rest) /\
         geometry_coordinates route = None)) /\
     (routeError st' = None \/ routeError st' = Some networkErrorMessage)).
Proof.
  cbv zeta. split; [|split].
  - destruct startPoint, endPoint, routeType; simpl; try done.
    by destruct (routeFromService _).
  - intros [-> | ->]; [done|]. by destruct startPoint.
  - intros start end_ -> ->. rewrite <- routeFromService_None.
    destruct routeType; simpl.
    + destruct (routeFromService (osrm driving start end_)) eqn:E; simpl.
      * repeat split; eauto. all: try done. by intros [_ ?].
      * repeat split; eauto.
    + repeat split; eauto. all: try done. by intros [? _].
Qed.

End RouteExtras.

(** ** Suggestions *)

Lemma run_app es1 es2 st :
  run (es1 ++ es2) st = run es1 st ≫= run es2.
Proof.
  revert st. induction es1 as [|e es1 IH]; intros st; [done|].
  simpl. destruct (step e st); [apply IH | done].
Qed.

Lemma run_inputs vs st :
  exists st',
    run (Input <$> vs) st = Some st' /\
    timers st' = timers st ++ vs /\ inflight st' = inflight st /\
    searchQuery st' = default (searchQuery st) (last vs).
Proof.
  revert st. induction vs as [|v vs IH]; intros st.
  - exists st. by rewrite app_nil_r.
  - simpl. destruct (IH (handleInputChange v st)) as (st' & Hr & Ht & Hi & Hq).
    exists st'. split; [done|]. simpl in Ht, Hi, Hq.
    rewrite Ht, <- app_assoc. split; [done|]. split; [done|].
    rewrite Hq. by destruct vs as [|? ? _] using rev_ind;
      [|rewrite app_comm_cons, !last_snoc].
Qed.

Lemma run_timers vs st :
  timers st = vs ->
  exists st',
    run (replicate (length vs) TimerFires) st = Some st' /\
    timers st' = [] /\
    inflight st' = inflight st ++ filter (fun v => tooShort v = false) vs /\
    searchQuery st' = searchQuery st.
Proof.
  revert st. induction vs as [|v vs IH]; intros st Ht.
  - exists st. by rewrite app_nil_r.
  - simpl. rewrite Ht. unfold getSuggestions. simpl.
    destruct (tooShort v) eqn:Hv; simpl.
    + edestruct IH as (st' & Hr & Ht' & Hi & Hq); [|exists st'; split; [exact Hr|]];
        [reflexivity|].
      simpl in Hi, Hq. rewrite app_nil_r in Hi.
      rewrite filter_cons_False by (by rewrite Hv). done.
    + edestruct IH as (st' & Hr & Ht' & Hi & Hq); [|exists st'; split; [exact Hr|]];
        [reflexivity|].
      simpl in Hi, Hq. rewrite <- app_assoc in Hi.
      rewrite filter_cons_True by done. done.
Qed.

(** X27. the delay does not thin out requests: after any burst of
    keystrokes, once their timers have fired, one request is in flight for
    every keystroke whose value passed the guard, in the order typed. *)
Theorem every_keystroke_requests vs :
  exists st,
    run ((Input <$> vs) ++ replicate (length vs) TimerFires) initialSuggest
      = Some st /\
    inflight st = filter (fun v => tooShort v = false) vs /\
    timers st = [] /\
    searchQuery st = default [] (last vs).
Proof.
  destruct (run_inputs vs initialSuggest) as (st1 & Hr1 & Ht1 & Hi1 & Hq1).
  destruct (run_timers vs st1 Ht1) as (st2 & Hr2 & Ht2 & Hi2 & Hq2).
  exists st2. rewrite run_app, Hr1. simpl. split; [exact Hr2|].
  rewrite Hi2, Hi1, Hq2, Hq1. done.
Qed.

Lemma elem_of_remove1 q x l : x ∈ remove1 q l -> x ∈ l.
Proof.
  induction l as [|y l IH]; simpl; [done|].
  case_bool_decide.
  - intros ?. by apply elem_of_cons; right.
  - intros [->|?]%elem_of_cons; apply elem_of_cons; auto.
Qed.

Lemma step_inflight e st st' :
  step e st = Some st' ->
  forall q, q ∈ inflight st' -> q ∈ inflight st \/ tooShort q = false.
Proof.
  destruct e as [v| |query o]; simpl.
  - intros [= <-] q Hq. by left.
  - destruct (timers st) as [|v rest]; [done|].
    unfold getSuggestions. simpl. destruct (tooShort v) eqn:Hv; simpl;
      intros [= <-] q; simpl.
    + rewrite app_nil_r. by left.
    + intros [?|Hx]%elem_of_app; [by left|].
      apply list_elem_of_singleton in Hx as ->. by right.
  - case_bool_decide; [|done]. intros [= <-] q Hq. left.
    assert (inflight (getSuggestions_resume o
      {| searchQuery := searchQuery st;
         searchSuggestions := searchSuggestions st;
         showSuggestions := showSuggestions st;
         isSearching := isSearching st; timers := timers st;
         inflight := remove1 query (inflight st) |})
      = remove1 query (inflight st)) as E
      by (by destruct o as [|[|] [|]]).
    rewrite E in Hq. by eapply elem_of_remove1.
Qed.

(** X28. in every state the page can reach, each request in flight is for a
    query that passed the guard: its trimmed form is not empty and it is
    at least two characters long. *)
Theorem inflight_passed_guard st :
  reachable st ->
  forall q, q ∈ inflight st ->
    tooShort q = false /\ trim q <> [] /\ (2 <= length q)%nat.
Proof.
  intros [es Hrun] q Hq.
  assert (tooShort q = false) as Hs.
  { assert (forall st0, run es st0 = Some st ->
              q ∈ inflight st0 \/ tooShort q = false) as Hgen.
    { clear Hrun. induction es as [|e es IH]; intros st0 Hr.
      - injection Hr as ->. by left.
      - simpl in Hr. destruct (step e st0) as [st1|] eqn:He; [|done].
        destruct (IH _ Hr) as [Hin|?]; [|by right].
        by eapply step_inflight. }
    destruct (Hgen _ Hrun) as [Hin|?]; [|done].
    by apply elem_of_nil in Hin. }
  split; [done|]. unfold tooShort in Hs.
  destruct (trim q); [done|]. split; [done|].
  by apply Nat.ltb_ge in Hs.
Qed.

(** ** Recent searches *)

Lemma saveRecentSearch_list q st :
  recentSearches (saveRecentSearch true q st)
  = q :: take 4 (filter (fun s => s <> q) (recentSearches st)).
Proof. reflexivity. Qed.

Lemma saveRecentSearch_NoDup q st :
  NoDup (recentSearches st) ->
  NoDup (recentSearches (saveRecentSearch true q st)).
Proof.
  intros Hnd. rewrite saveRecentSearch_list. apply NoDup_cons. split.
  - intros Hin%subseteq_take%list_elem_of_filter. by destruct Hin.
  - apply (sublist_NoDup _ (filter (fun s => s <> q) (recentSearches st)));
      [by apply NoDup_filter | apply sublist_take].
Qed.

(** X29. saving the same query twice in a row is the same as saving it
    once; a list without repetitions stays without repetitions through
    any sequence of saves and, after the first save, never has more than
    five entries, the last query saved at its front and the stored copy
    equal to the displayed list, so that loading on the next visit brings
    back the list as displayed. *)
Theorem saveAll_invariant queries q st :
  saveRecentSearch true q (saveRecentSearch true q st)
    = saveRecentSearch true q st /\
  (NoDup (recentSearches st) ->
   NoDup (recentSearches (saveAll (queries ++ [q]) st))) /\
  (length (recentSearches (saveAll (queries ++ [q]) st)) <= 5)%nat /\
  head (recentSearches (saveAll (queries ++ [q]) st)) = Some q /\
  stored (saveAll (queries ++ [q]) st)
    = Some (recentSearches (saveAll (queries ++ [q]) st)) /\
  recentSearches
    (loadRecentSearches true
       {| recentSearches := [];
          stored := stored (saveAll (queries ++ [q]) st) |})
    = recentSearches (saveAll (queries ++ [q]) st).
Proof.
  split.
  { unfold saveRecentSearch. cbn [recentSearches].
    set (F := filter (fun s => s <> q) (recentSearches st)).
    assert (take 5 (q :: filter (fun s => s <> q) (take 5 (q :: F)))
            = take 5 (q :: F)) as ->; [|done].
    rewrite !(firstn_cons 4).
    rewrite filter_cons_False by (intros Hq; by apply Hq). f_equal.
    rewrite filter_ne_absent.
    - apply take_ge. rewrite length_take. lia.
    - subst F. intros Hin%subseteq_take%list_elem_of_filter. by destruct Hin. }
  unfold saveAll. rewrite fold_left_app. cbn [fold_left].
  set (st1 := fold_left _ queries st).
  split.
  { intros Hnd. apply saveRecentSearch_NoDup. subst st1.
    revert st Hnd. induction queries as [|x xs IH]; intros st Hnd; [done|].
    simpl. apply IH. by apply saveRecentSearch_NoDup. }
  unfold loadRecentSearches, saveRecentSearch. cbn [recentSearches stored].
  rewrite (firstn_cons 4). cbn [length head]. rewrite length_take.
  repeat split. lia.
Qed.

(** ** Searching and selecting *)

(** X30. a search for a blank query does nothing at all; any other query is
    put at the front of the recent searches and handed to the tracker
    before the lookup is made, so also when the lookup fails or finds
    nothing, in which case the destination stays as it was; when a match
    comes back the destination becomes its first match. *)
Theorem handleSearch_effect hasTracker parseFloat query o st :
  let st' := handleSearch true hasTracker parseFloat query o st in
  (trim query = [] -> st' = st) /\
  (trim query <> [] ->
   head (recentSearches (recent st')) = Some query /\
   recent st' = saveRecentSearch true query (recent st) /\
   tracked st' = (if hasTracker then tracked st ++ [query] else tracked st) /\
   showSuggestions (suggest st') = false /\
   searchQuery (suggest st') = searchQuery (suggest st) /\
   match o with
   | Replied true (Some (result :: _)) =>
     endPoint st' = Some {| longitude := parseFloat (lon result);
                            latitude := parseFloat (lat result) |} /\
     endPointInfo st' = Some {| name := beforeComma (display_name result);
                                address := display_name result |}
   | _ => endPoint st' = endPoint st /\ endPointInfo st' = endPointInfo st
   end).
Proof.
  cbv zeta. unfold handleSearch, track. split.
  - by intros ->.
  - intros Hne. destruct (trim query) as [|c r]; [done|].
    destruct o as [|[|] [[|result rest]|]]; simpl; repeat split.
Qed.

(** ** The theorems on sample inputs *)

Lemma getRoute_uses_first_candidate_witness :
  let st' := @getRoute Examples.firstOrderMath Examples.oneWayOsrm
               (Some Examples.newDelhi) (Some Examples.rohini) road
               Examples.noRoute in
  routeCoordinates st' =
    Some [ (28.6139, 77.2090); (28.66, 77.15); (28.7041, 77.1025) ]%float /\
  routeInfo st' = Some {| distance := 14200; duration := 1560 |} /\
  routeError st' = None.
Proof.
  destruct (@getRoute_uses_first_candidate Examples.firstOrderMath
              Examples.oneWayOsrm Examples.newDelhi Examples.rohini road
              Examples.noRoute {| routes := Some [Examples.oneWay] |}
              Examples.oneWay []
              [ (77.2090, 28.6139); (77.15, 28.66); (77.1025, 28.7041) ]%float
              eq_refl eq_refl eq_refl)
    as (Hc & _ & _ & Hi & He & _).
  split; [exact Hc|]. split; [exact Hi | exact He].
Defined.

Lemma inflight_passed_guard_witness :
  exists st,
    run [Input (js "pu"); TimerFires] initialSuggest = Some st /\
    inflight st = [js "pu"] /\
    tooShort (js "pu") = false /\ (2 <= length (js "pu"))%nat.
Proof.
  destruct (run [Input (js "pu"); TimerFires] initialSuggest) as [st|] eqn:Hr;
    [|by vm_compute in Hr].
  assert (inflight st = [js "pu"]) as Hi
    by (revert Hr; vm_compute; by intros [= <-]).
  exists st. split; [reflexivity|]. split; [exact Hi|].
  destruct (inflight_passed_guard st (ex_intro _ _ Hr) (js "pu")) as (Hs & _ & Hl).
  - rewrite Hi. apply list_elem_of_singleton. reflexivity.
  - split; [exact Hs | exact Hl].
Defined.

End PageExtras.
